(** * Steam Pad Simulator (hhd plugin): the touch-to-pointer translation loop

    A shallow embedding of [src/hhd/plugins/steam_pad_simulator/__init__.py]:
    the per-event body of [_input_thread_loop], the loop with its stop flag,
    the start-up and tear-down of the thread function, and the thread
    management of [update].

    Python [int] is [Z]; Python [float] is IEEE binary64, taken from the
    Standard Library's [SpecFloat] (precision 53, [emax] 1024), so that
    [int(... * self.sensitivity)] rounds, and raises, as the interpreter
    does.  Calls on the collaborators ([UInput], [InputDevice],
    [emit.inject], [time.sleep], threads) are recorded in a trace of actions;
    of these only the two constructors of the [try] block may raise, after
    the [AbsInfo] calls that build the capabilities.  The
    stop flag and the attributes that [update] writes from the other thread
    are read once per turn of the loop. *)

From Stdlib Require Import ZArith List String Bool Lia QArith.
From Stdlib Require Import Floats.SpecFloat.
Import ListNotations.

Local Open Scope string_scope.
Local Open Scope Z_scope.
Local Open Scope list_scope.

Set Warnings "-register-all".

(** * Part I: the program *)

(** ** Python numbers *)

Module Py.

(** Python exceptions that the arithmetic of the loop can raise. *)
Inductive exc := OverflowError | ValueError.

Inductive result (A : Type) :=
| Ok (a : A)
| Raise (e : exc).
Arguments Ok {A} a.
Arguments Raise {A} e.

Definition prec : Z := 53.
Definition emax : Z := 1024.

Definition float := spec_float.

Definition is_finite (f : float) : bool :=
  match f with
  | S754_zero _ | S754_finite _ _ _ => true
  | S754_infinity _ | S754_nan => false
  end.

(** [float(n)] for an [int] n: rounded to nearest even; an [int] beyond
    the range of binary64 raises [OverflowError]. *)
Definition float_of_int (n : Z) : result float :=
  match binary_normalize prec emax n 0 false with
  | S754_infinity _ => Raise OverflowError
  | f => Ok f
  end.

(** [int(f)] for a [float] f: the fraction bits are shifted out of the
    magnitude (truncation), the sign is put back; infinities raise
    [OverflowError] and NaN raises [ValueError]. *)
Definition int_of_float (f : float) : result Z :=
  match f with
  | S754_zero _ => Ok 0
  | S754_infinity _ => Raise OverflowError
  | S754_nan => Raise ValueError
  | S754_finite s m e => Ok (cond_Zopp s (Z.shiftl (Zpos m) e))
  end.

(** [n * f] for an [int] n and a [float] f: n is converted, then the
    binary64 product is taken. *)
Definition mul_int_float (n : Z) (f : float) : result float :=
  match float_of_int n with
  | Ok fn => Ok (SFmul prec emax fn f)
  | Raise e => Raise e
  end.

(** [a / b] for two [int]s that binary64 holds exactly (true division);
    [ZeroDivisionError] is not modelled, the loop divides by 2 only. *)
Definition truediv (a b : Z) : float :=
  SFdiv prec emax (binary_normalize prec emax a 0 false)
                  (binary_normalize prec emax b 0 false).

(** [n < f] for an [int] n and a [float] f: Python compares the exact
    values, without converting n. *)
Definition int_lt_float (n : Z) (f : float) : bool :=
  match f with
  | S754_zero _ => n <? 0
  | S754_infinity s => negb s
  | S754_nan => false
  | S754_finite s m e =>
      if 0 <=? e then n <? cond_Zopp s (Zpos m) * 2 ^ e
      else n * 2 ^ (- e) <? cond_Zopp s (Zpos m)
  end.

(** A decimal literal [n/d] of the source ([0.6], [0.05]): the nearest
    binary64 number. *)
Definition literal (n d : Z) : float := truediv n d.

End Py.
Import Py.

(** ** Event codes *)

(** Modelled from the spec: [evdev.ecodes] (imported [as e]) is not part of
    the repository.  The spec names the event types (absolute axis,
    key/button, synchronization report, relative axis) and the codes (X and
    Y axes, touch button) without their numbers, which are those of the
    kernel's input-event-codes header that evdev re-exports. *)
Module e.
Definition EV_SYN : Z := 0.
Definition EV_KEY : Z := 1.
Definition EV_REL : Z := 2.
Definition EV_ABS : Z := 3.
Definition ABS_X : Z := 0.
Definition ABS_Y : Z := 1.
Definition REL_X : Z := 0.
Definition REL_Y : Z := 1.
Definition BTN_TOUCH : Z := 330.
Definition EV_FF : Z := 21.
Definition BTN_LEFT : Z := 272.
Definition BTN_A : Z := 304.
Definition BTN_B : Z := 305.
Definition FF_RUMBLE : Z := 80.
End e.

Definition SCREEN_WIDTH : Z := 1920.
Definition SCREEN_HEIGHT : Z := 1080.

(** ** Data model *)

(** An [evdev.InputEvent], as far as the loop reads it. *)
Record InputEvent := {
  type : Z;
  code : Z;
  value : Z
}.

(** The two strings that [state['touching']] takes besides [None]. *)
Inductive Side := Left | Right.

Definition side_str (s : Side) : string :=
  match s with Left => "left" | Right => "right" end.

(** The [state] dict of the loop. *)
Record TouchState := {
  touching : option Side;
  x : Z;
  y : Z;
  last_x : Z;
  last_y : Z
}.

Definition initial_state : TouchState :=
  {| touching := None; x := 0; y := 0; last_x := 0; last_y := 0 |}.

(** The attributes of the plugin that the loop reads while it runs. *)
Record Live := {
  sensitivity : float;
  enable_haptics : bool;
  show_debug_borders : bool
}.

(** Values and dicts handed to [emit.inject]. *)
Inductive pyval :=
| PInt (n : Z)
| PFloat (f : float)
| PStr (s : string)
| PBool (b : bool)
| PTuple (l : list pyval).

Definition pydict := list (string * pyval).

Fixpoint get (k : string) (d : pydict) : option pyval :=
  match d with
  | [] => None
  | (k', v) :: d' => if String.eqb k k' then Some v else get k d'
  end.

(** What the thread function does to the outside, in order. *)
Inductive Action :=
| UInputCreate                       (* UInput(...) returned *)
| OpenSource                         (* InputDevice(path) returned *)
| LogError                           (* logger.error in the except branch *)
| Inject (d : pydict)                (* self.emit.inject(d) *)
| Sleep (seconds : float)            (* time.sleep(seconds) *)
| Write (etype ecode v : Z)          (* self.virtual_controller.write(...) *)
| Syn                                (* self.virtual_controller.syn() *)
| Close.                             (* self.virtual_controller.close() *)

(** ** A trace-and-exception monad for the loop *)

Definition M (A : Type) : Type := list Action * result A.

Definition ret {A} (a : A) : M A := ([], Ok a).

Definition bind {A B} (m : M A) (f : A -> M B) : M B :=
  match m with
  | (t, Ok a) => let (t', r) := f a in (t ++ t', r)
  | (t, Raise ex) => (t, Raise ex)
  end.

Definition emit (a : Action) : M unit := ([a], Ok tt).

Definition lift {A} (r : result A) : M A := ([], r).

Definition when (b : bool) (m : M unit) : M unit :=
  if b then m else ret tt.

Notation "x <- m ;; k" := (bind m (fun x => k))
  (at level 61, m at next level, right associativity).
Notation "m ;;; k" := (bind m (fun _ => k))
  (at level 61, right associativity).

Definition trace {A} (m : M A) : list Action := fst m.
Definition outcome {A} (m : M A) : result A := snd m.

(** ** The body of the loop, [_input_thread_loop] lines 116-164 *)

Definition is_touching (st : TouchState) : bool :=
  match touching st with Some _ => true | None => false end.

(** [if event.type == e.EV_ABS: ...] "Colleziona le coordinate". *)
Definition collect_coordinates (st : TouchState) (ev : InputEvent) : TouchState :=
  if type ev =? e.EV_ABS then
    if code ev =? e.ABS_X then
      {| touching := touching st; x := value ev; y := y st;
         last_x := last_x st; last_y := last_y st |}
    else if code ev =? e.ABS_Y then
      {| touching := touching st; x := x st; y := value ev;
         last_x := last_x st; last_y := last_y st |}
    else st
  else st.

(** ['left' if state['x'] < screen_width / 2 else 'right'], with the module
    constant [SCREEN_WIDTH] of the source as the argument [screen_width]. *)
Definition resolve (cx screen_width : Z) : Side :=
  if int_lt_float cx (truediv screen_width 2) then Left else Right.

Definition rumble (strong weak : pyval) : pydict :=
  [ ("type", PStr "rumble"); ("code", PStr "main");
    ("strong_magnitude", strong); ("weak_magnitude", weak) ].

Definition overlay_id (side : Side) : string :=
  String.append "sps_debug_" (side_str side).

Definition border_rect (side : Side) : pydict :=
  [ ("id", PStr (overlay_id side));
    ("type", PStr "overlay");
    ("x", match side with
          | Left => PInt 0
          | Right => PFloat (truediv SCREEN_WIDTH 2)
          end);
    ("y", PInt 0);
    ("width", PFloat (truediv SCREEN_WIDTH 2));
    ("height", PInt SCREEN_HEIGHT);
    ("color", PTuple [PInt 255; PInt 0; PInt 0; PInt 100]);
    ("border_size", PInt 5) ].

Definition remove_rect (side : Side) : pydict :=
  [ ("type", PStr "overlay"); ("id", PStr (overlay_id side));
    ("remove", PBool true) ].

(** [if event.type == e.EV_KEY and event.code == e.BTN_TOUCH: ...]
    "Gestisce l'inizio e la fine del tocco". *)
Definition handle_touch (cfg : Live) (st : TouchState) (ev : InputEvent)
  : M TouchState :=
  if (type ev =? e.EV_KEY) && (code ev =? e.BTN_TOUCH) then
    let side := resolve (x st) SCREEN_WIDTH in
    if (value ev =? 1) && negb (is_touching st) then
      let st1 := {| touching := Some side; x := x st; y := y st;
                    last_x := x st; last_y := y st |} in
      when (enable_haptics cfg)
        (emit (Inject (rumble (PFloat (literal 6 10)) (PFloat (literal 6 10)))) ;;;
         emit (Sleep (literal 5 100)) ;;;
         emit (Inject (rumble (PInt 0) (PInt 0)))) ;;;
      when (show_debug_borders cfg)
        (emit (Inject (border_rect side))) ;;;
      ret st1
    else
      match value ev =? 0, touching st with
      | true, Some held =>
          when (show_debug_borders cfg)
            (emit (Inject (remove_rect held))) ;;;
          ret {| touching := None; x := x st; y := y st;
                 last_x := last_x st; last_y := last_y st |}
      | _, _ => ret st
      end
  else ret st.

(** [int((cur - last) * self.sensitivity)]. *)
Definition scaled_delta (cur last : Z) (sens : float) : result Z :=
  match mul_int_float (cur - last) sens with
  | Ok p => int_of_float p
  | Raise ex => Raise ex
  end.

(** [if event.type == e.EV_SYN and state['touching']: ...]
    "Gestisce il movimento". *)
Definition handle_movement (cfg : Live) (st : TouchState) (ev : InputEvent)
  : M TouchState :=
  if (type ev =? e.EV_SYN) && is_touching st then
    delta_x <- lift (scaled_delta (x st) (last_x st) (sensitivity cfg)) ;;
    delta_y <- lift (scaled_delta (y st) (last_y st) (sensitivity cfg)) ;;
    when (negb (delta_x =? 0)) (emit (Write e.EV_REL e.REL_X delta_x)) ;;;
    when (negb (delta_y =? 0)) (emit (Write e.EV_REL e.REL_Y delta_y)) ;;;
    emit Syn ;;;
    ret {| touching := touching st; x := x st; y := y st;
           last_x := x st; last_y := y st |}
  else ret st.

Definition loop_body (cfg : Live) (st : TouchState) (ev : InputEvent)
  : M TouchState :=
  st1 <- handle_touch cfg (collect_coordinates st ev) ev ;;
  handle_movement cfg st1 ev.

(** ** The loop and the thread function *)

(** One turn of [for event in self.touch_device.read_loop()]: the event read,
    with what the other thread has made of the stop flag and of the live
    attributes by then. *)
Record Tick := {
  stop_is_set : bool;
  live : Live;
  event : InputEvent
}.

(** The [for] loop over the events that the source device delivers before
    its stream ends; [break] when the stop flag is set. *)
Fixpoint read_loop (st : TouchState) (ticks : list Tick) : M TouchState :=
  match ticks with
  | [] => ret st
  | t :: rest =>
      if stop_is_set t then ret st
      else st' <- loop_body (live t) st (event t) ;; read_loop st' rest
  end.

(** Whether the two constructors of the [try] block return or raise. *)
Record Startup := {
  uinput_ok : bool;
  input_device_ok : bool
}.

(** [evdev.AbsInfo] is not part of the repository, and the spec gives only
    the values that the capabilities are declared with (range, fuzz 16,
    flat 128).  It is modelled as the library defines it: a named tuple of
    the fields value, min, max, fuzz, flat and resolution, none of them with
    a default, so that a call must give all six. *)
Definition AbsInfo_fields : list string :=
  ["value"; "min"; "max"; "fuzz"; "flat"; "resolution"].

Fixpoint kwarg (k : string) (kwargs : list (string * Z)) : option Z :=
  match kwargs with
  | [] => None
  | (k', v) :: rest => if String.eqb k k' then Some v else kwarg k rest
  end.

Fixpoint fields_of (fields : list string) (kwargs : list (string * Z))
  : option (list Z) :=
  match fields with
  | [] => Some []
  | f :: rest =>
      match kwarg f kwargs, fields_of rest kwargs with
      | Some v, Some vs => Some (v :: vs)
      | _, _ => None
      end
  end.

(** [AbsInfo(k1=v1, ...)]: the tuple of the six fields; [None] is the
    [TypeError] that a missing field or an unknown keyword raises. *)
Definition AbsInfo (kwargs : list (string * Z)) : option (list Z) :=
  if forallb (fun kv => existsb (String.eqb (fst kv)) AbsInfo_fields) kwargs
  then fields_of AbsInfo_fields kwargs
  else None.

(** The keywords of the two calls of lines 90 and 91. *)
Definition axis_kwargs : list (string * Z) :=
  [("value", 0); ("min", -32768); ("max", 32767); ("fuzz", 16);
   ("flat", 128)].

(** The [capabilities] dict of lines 88-96, by its four keys. *)
Record Capabilities := {
  caps_EV_ABS : list (Z * list Z);
  caps_EV_REL : list Z;
  caps_EV_KEY : list Z;
  caps_EV_FF : list Z
}.

(** Lines 88-96: [None] when one of the [AbsInfo] calls raises. *)
Definition capabilities : option Capabilities :=
  match AbsInfo axis_kwargs with
  | Some info_x =>
      match AbsInfo axis_kwargs with
      | Some info_y =>
          Some {| caps_EV_ABS := [(e.ABS_X, info_x); (e.ABS_Y, info_y)];
                  caps_EV_REL := [e.REL_X; e.REL_Y];
                  caps_EV_KEY := [e.BTN_A; e.BTN_B; e.BTN_LEFT];
                  caps_EV_FF := [e.FF_RUMBLE] |}
      | None => None
      end
  | None => None
  end.

(** Lines 110-169: the state, the loop, and the close of
    [self.virtual_controller], which is the device that the [try] block
    made when this code is reached. *)
Definition loop_and_close (ticks : list Tick) : M unit :=
  _ <- read_loop initial_state ticks ;;
  emit Close.

(** Lines 97-169, the function once [capabilities] is built: the two
    constructors of the [try] block, the [except ... return] for either of
    them, then the loop and the close. *)
Definition started_thread (env : Startup) (ticks : list Tick) : M unit :=
  if uinput_ok env then
    emit UInputCreate ;;;
    if input_device_ok env then
      emit OpenSource ;;;
      loop_and_close ticks
    else emit LogError
  else emit LogError.

(** [_input_thread_loop]: the whole [try] block, in which building
    [capabilities] comes first, with its [except ... return]; then the
    loop and the close. *)
Definition _input_thread_loop (env : Startup) (ticks : list Tick) : M unit :=
  match capabilities with
  | Some _ => started_thread env ticks
  | None => emit LogError
  end.

(** ** The plugin and [update] *)

(** The section ["steam_pad_simulator"] of the configuration: each key may
    be absent. *)
Record ConfSection := {
  conf_enable : option bool;
  conf_device_path : option string;
  conf_sensitivity : option float;
  conf_enable_haptics : option bool;
  conf_show_debug_borders : option bool
}.

(** [conf]: the section itself may be absent. *)
Definition Config := option ConfSection.

Definition empty_section : ConfSection :=
  {| conf_enable := None; conf_device_path := None; conf_sensitivity := None;
     conf_enable_haptics := None; conf_show_debug_borders := None |}.

(** [d.get(key, default)]. *)
Definition dict_get {A} (entry : option A) (default : A) : A :=
  match entry with Some v => v | None => default end.

(** What [update] does to the loop thread; a thread object is named by its
    rank among the threads made. *)
Inductive ThreadOp :=
| StopSet                               (* self.stop_thread.set() *)
| Join (t : nat)                        (* self.input_thread.join() *)
| StopClear                             (* self.stop_thread.clear() *)
| Start (t : nat) (path : option string). (* Thread(...).start() *)

(** The attributes of the plugin. *)
Record Plugin := {
  enabled : bool;
  touch_device_path : option string;
  attrs : Live;
  input_thread : option nat;
  threads_made : nat
}.

(** [__init__]. *)
Definition initial_plugin : Plugin :=
  {| enabled := false;
     touch_device_path := None;
     attrs := {| sensitivity := literal 1 1; enable_haptics := true;
                 show_debug_borders := false |};
     input_thread := None;
     threads_made := 0 |}.

Definition path_eqb (a : option string) (b : string) : bool :=
  match a with Some s => String.eqb s b | None => false end.

Definition new_enabled (conf : Config) : bool :=
  dict_get (conf_enable (dict_get conf empty_section)) false.

Definition new_device_path (conf : Config) : string :=
  dict_get (conf_device_path (dict_get conf empty_section))
    "/dev/input/event5".

Definition new_attrs (conf : Config) : Live :=
  let config_section := dict_get conf empty_section in
  {| sensitivity := dict_get (conf_sensitivity config_section) (literal 1 1);
     enable_haptics := dict_get (conf_enable_haptics config_section) true;
     show_debug_borders :=
       dict_get (conf_show_debug_borders config_section) false |}.

(** [update]: the thread is stopped and started anew only when [enabled] or
    the device path differ from the stored ones.  The source writes
    [enable_haptics] and [show_debug_borders] before this and [sensitivity]
    after it; the result holds the three of them as they are on return. *)
Definition update (p : Plugin) (conf : Config) : Plugin * list ThreadOp :=
  if negb (Bool.eqb (enabled p) (new_enabled conf))
     || negb (path_eqb (touch_device_path p) (new_device_path conf))
  then
    let stopped :=
      match input_thread p with
      | Some t => [StopSet; Join t; StopClear]
      | None => []
      end in
    if new_enabled conf then
      ({| enabled := new_enabled conf;
          touch_device_path := Some (new_device_path conf);
          attrs := new_attrs conf;
          input_thread := Some (threads_made p);
          threads_made := S (threads_made p) |},
       stopped ++ [Start (threads_made p) (Some (new_device_path conf))])
    else
      ({| enabled := new_enabled conf;
          touch_device_path := Some (new_device_path conf);
          attrs := new_attrs conf;
          input_thread := input_thread p;
          threads_made := threads_made p |},
       stopped)
  else
    ({| enabled := enabled p;
        touch_device_path := touch_device_path p;
        attrs := new_attrs conf;
        input_thread := input_thread p;
        threads_made := threads_made p |},
     []).

(** [close]: the loop thread, if one was ever made, is asked to stop and
    joined; the stop flag is left set. *)
Definition close (p : Plugin) : Plugin * list ThreadOp :=
  match input_thread p with
  | Some t => (p, [StopSet; Join t])
  | None => (p, [])
  end.

(** [autodetect]: the plugins that exist already, or else a fresh one.
    [existing] holds plugins of any class ([HHDPlugin]); [as_plugin] is the
    view of a [SteamPadSimulatorPlugin] as one of them. *)
Definition autodetect {HHDPlugin : Type} (as_plugin : Plugin -> HHDPlugin)
    (existing : list HHDPlugin) : list HHDPlugin :=
  if (0 <? Z.of_nat (List.length existing)) then existing
  else [as_plugin initial_plugin].

(** * Part II: what is observed of a run *)

(** ** Events and traces *)

Definition is_touch_button (ev : InputEvent) : bool :=
  (type ev =? e.EV_KEY) && (code ev =? e.BTN_TOUCH).

(** A press of the touch button, whatever the state. *)
Definition is_press (ev : InputEvent) : bool :=
  is_touch_button ev && (value ev =? 1).

(** A release of the touch button, whatever the state. *)
Definition is_release (ev : InputEvent) : bool :=
  is_touch_button ev && (value ev =? 0).

Definition touch_start (st : TouchState) (ev : InputEvent) : bool :=
  is_press ev && negb (is_touching st).

Definition touch_end (st : TouchState) (ev : InputEvent) : bool :=
  is_release ev && is_touching st.

Definition sync_while_touching (st : TouchState) (ev : InputEvent) : bool :=
  (type ev =? e.EV_SYN) && is_touching st.

(** The calls on the virtual device in a trace. *)
Definition is_axis_write (a : Action) : bool :=
  match a with Write _ _ _ => true | _ => false end.

Definition is_syn (a : Action) : bool :=
  match a with Syn => true | _ => false end.

Definition is_close (a : Action) : bool :=
  match a with Close => true | _ => false end.

Definition is_device_output (a : Action) : bool :=
  is_axis_write a || is_syn a.

Definition axis_writes (tr : list Action) : list Action := filter is_axis_write tr.
Definition syn_calls (tr : list Action) : nat := List.length (filter is_syn tr).
Definition close_calls (tr : list Action) : nat := List.length (filter is_close tr).
Definition device_output (tr : list Action) : list Action :=
  filter is_device_output tr.

(** The traces of the two optional effects of a touch-start. *)
Definition haptic_pulse (cfg : Live) : list Action :=
  if enable_haptics cfg then
    [ Inject (rumble (PFloat (literal 6 10)) (PFloat (literal 6 10)));
      Sleep (literal 5 100);
      Inject (rumble (PInt 0) (PInt 0)) ]
  else [].

Definition border_shown (cfg : Live) (side : Side) : list Action :=
  if show_debug_borders cfg then [Inject (border_rect side)] else [].

Definition border_removed (cfg : Live) (side : Side) : list Action :=
  if show_debug_borders cfg then [Inject (remove_rect side)] else [].

(** The writes of one frame, for the two deltas. *)
Definition delta_writes (dx dy : Z) : list Action :=
  (if dx =? 0 then [] else [Write e.EV_REL e.REL_X dx]) ++
  (if dy =? 0 then [] else [Write e.EV_REL e.REL_Y dy]).

(** ** The exact value of a float, as a fraction of integers *)

Definition float_num (f : float) : Z :=
  match f with
  | S754_finite s m ex => cond_Zopp s (Zpos m) * 2 ^ Z.max 0 ex
  | _ => 0
  end.

Definition float_den (f : float) : Z :=
  match f with
  | S754_finite _ _ ex => 2 ^ Z.max 0 (- ex)
  | _ => 1
  end.

(** The mantissa of [float(m)], for m of at most 53 bits: m shifted left to
    53 bits. *)
Definition norm53 (m : positive) : positive :=
  match (53 - Zpos (digits2_pos m))%Z with
  | Zpos k => Pos.iter xO m k
  | _ => m
  end.

(** [float(2)]. *)
Definition two : float := S754_finite false 4503599627370496 (-51).

(** The float [2 ** j], for a small j: the sensitivities 1.0, 2.0, 4.0. *)
Definition pow2_float (j : Z) : float :=
  S754_finite false 4503599627370496 (j - 52).

(** ** Coordinates collected *)

(** The value of the latest report of an axis among the events read. *)
Definition axis_step (axis : Z) (acc : Z) (ev : InputEvent) : Z :=
  if (type ev =? e.EV_ABS) && (code ev =? axis) then value ev else acc.

Definition latest (axis init : Z) (evs : list InputEvent) : Z :=
  fold_left (axis_step axis) evs init.

(** The [value] of an event is a signed 32-bit integer. *)
Definition fits_s32 (v : Z) : Prop := - 2 ^ 31 <= v < 2 ^ 31.

Definition in_range (st : TouchState) : Prop :=
  fits_s32 (x st) /\ fits_s32 (y st)
  /\ fits_s32 (last_x st) /\ fits_s32 (last_y st).

(** The sum of the relative moves written on an axis. *)
Fixpoint rel_sum (axis : Z) (tr : list Action) : Z :=
  match tr with
  | [] => 0
  | Write ty c v :: tr' =>
      if (ty =? e.EV_REL) && (c =? axis) then v + rel_sum axis tr'
      else rel_sum axis tr'
  | _ :: tr' => rel_sum axis tr'
  end.

(** A turn within one touch at the default sensitivity 1.0: any event but a
    release of the touch button. *)
Definition unit_drag (t : Tick) : Prop :=
  is_release (event t) = false
  /\ sensitivity (live t) = pow2_float 0
  /\ fits_s32 (value (event t)).

(** A turn whose sensitivity is a power of two, on an event a device can
    send. *)
Definition plain_tick (t : Tick) : Prop :=
  (exists j : Z, 0 <= j <= 900 /\ sensitivity (live t) = pow2_float j)
  /\ fits_s32 (value (event t)).

(** ** Overlay commands *)

(** The overlay commands among the dicts injected: a dict of type
    ["overlay"] with an ["id"] hides its overlay if it carries
    ["remove": True], and shows it otherwise. *)
Inductive OverlayCmd :=
| Show (id : string)
| Hide (id : string).

Definition overlay_cmd (a : Action) : option OverlayCmd :=
  match a with
  | Inject d =>
      match get "type" d, get "id" d with
      | Some (PStr ty), Some (PStr id) =>
          if String.eqb ty "overlay" then
            match get "remove" d with
            | Some (PBool true) => Some (Hide id)
            | _ => Some (Show id)
            end
          else None
      | _, _ => None
      end
  | _ => None
  end.

Fixpoint overlay_log (tr : list Action) : list OverlayCmd :=
  match tr with
  | [] => []
  | a :: tr' =>
      match overlay_cmd a with
      | Some c => c :: overlay_log tr'
      | None => overlay_log tr'
      end
  end.

(** A log of overlay commands is paired when it alternates a show and the
    hide of the same id; [shown] is the id on screen before the log. *)
Fixpoint paired (shown : option string) (log : list OverlayCmd) : bool :=
  match log with
  | [] => true
  | Show id :: rest =>
      match shown with
      | None => paired (Some id) rest
      | Some _ => false
      end
  | Hide id :: rest =>
      match shown with
      | Some id' => String.eqb id id' && paired None rest
      | None => false
      end
  end.

Definition shown_id (st : TouchState) : option string :=
  option_map overlay_id (touching st).

(** The integer that a number handed to [emit.inject] denotes, if any. *)
Definition int_value (v : pyval) : option Z :=
  match v with
  | PInt n => Some n
  | PFloat f =>
      if is_finite f && (float_num f mod float_den f =? 0)
      then Some (float_num f / float_den f)
      else None
  | _ => None
  end.

Definition get_int (k : string) (d : pydict) : option Z :=
  match get k d with
  | Some v => int_value v
  | None => None
  end.

Definition is_overlay (a : Action) : bool :=
  match overlay_cmd a with Some _ => true | None => false end.

(** ** Sequences of updates and loop handles *)

Fixpoint run_updates (p : Plugin) (confs : list Config)
  : Plugin * list ThreadOp :=
  match confs with
  | [] => (p, [])
  | conf :: rest =>
      let (p1, ops1) := update p conf in
      let (p2, ops2) := run_updates p1 rest in
      (p2, ops1 ++ ops2)
  end.

(** The loop handles in existence: the threads started and not yet joined. *)
Definition apply_op (alive : list nat) (op : ThreadOp) : list nat :=
  match op with
  | Start t _ => t :: alive
  | Join t => filter (fun u => negb (Nat.eqb u t)) alive
  | _ => alive
  end.

(** At no point of a sequence of thread operations are there two handles. *)
Fixpoint never_two (alive : list nat) (ops : list ThreadOp) : bool :=
  (List.length alive <=? 1)%nat &&
  match ops with
  | [] => true
  | op :: rest => never_two (apply_op alive op) rest
  end.

(** The handles in existence are at most the thread that [input_thread]
    names. *)
Definition owned (p : Plugin) (alive : list nat) : Prop :=
  alive = [] \/ exists t, alive = [t] /\ input_thread p = Some t.

(** ** Calls on the plugin *)

(** What the host may call on a plugin once it is open. *)
Inductive Call :=
| DoUpdate (conf : Config)
| DoClose.

Definition call (p : Plugin) (c : Call) : Plugin * list ThreadOp :=
  match c with
  | DoUpdate conf => update p conf
  | DoClose => close p
  end.

Fixpoint run_calls (p : Plugin) (calls : list Call)
  : Plugin * list ThreadOp :=
  match calls with
  | [] => (p, [])
  | c :: rest =>
      let (p1, ops1) := call p c in
      let (p2, ops2) := run_calls p1 rest in
      (p2, ops1 ++ ops2)
  end.

(** The handles left by a sequence of thread operations. *)
Definition handles_after (alive : list nat) (ops : list ThreadOp) : list nat :=
  fold_left apply_op ops alive.

(** Every thread is started with the stop flag clear; [flag] is the flag
    before the operations. *)
Fixpoint starts_unflagged (flag : bool) (ops : list ThreadOp) : bool :=
  match ops with
  | [] => true
  | StopSet :: rest => starts_unflagged true rest
  | StopClear :: rest => starts_unflagged false rest
  | Join _ :: rest => starts_unflagged flag rest
  | Start _ _ :: rest => negb flag && starts_unflagged flag rest
  end.

(** The stop flag after a sequence of thread operations. *)
Fixpoint flag_after (flag : bool) (ops : list ThreadOp) : bool :=
  match ops with
  | [] => flag
  | StopSet :: rest => flag_after true rest
  | StopClear :: rest => flag_after false rest
  | _ :: rest => flag_after flag rest
  end.

(** Under [update] alone a handle exists exactly while the plugin is
    enabled. *)
Definition synced (p : Plugin) (alive : list nat) : Prop :=
  if enabled p
  then exists t, input_thread p = Some t /\ alive = [t]
  else alive = [].

(** A set stop flag belongs to a thread that [update] will join, and clear
    the flag for, before it starts another. *)
Definition flag_owned (p : Plugin) (flag : bool) : Prop :=
  flag = true -> exists t, input_thread p = Some t.

(** The events that the loop reads something from: a report of the X or Y
    axis, the touch button, a sync frame. *)
Definition recognised (ev : InputEvent) : bool :=
  ((type ev =? e.EV_ABS) && ((code ev =? e.ABS_X) || (code ev =? e.ABS_Y)))
  || is_touch_button ev
  || (type ev =? e.EV_SYN).

(** ** Haptics, frames and the life of the devices *)

Definition is_rumble (d : pydict) : bool :=
  match get "type" d with
  | Some (PStr ty) => String.eqb ty "rumble"
  | _ => false
  end.

(** The actions of a haptic pulse: the rumble commands and the sleeps. *)
Definition is_haptic (a : Action) : bool :=
  match a with
  | Sleep _ => true
  | Inject d => is_rumble d
  | _ => false
  end.

(** One pulse: rumble at 0.6, 50 ms of sleep, rumble at 0. *)
Definition pulse : list Action :=
  [ Inject (rumble (PFloat (literal 6 10)) (PFloat (literal 6 10)));
    Sleep (literal 5 100);
    Inject (rumble (PInt 0) (PInt 0)) ].

(** Frames of the virtual device: 0 when nothing is pending, 1 after a write
    on X, 2 after a write on Y.  A write is a non-zero relative move, X
    before Y and each at most once; [syn()] ends the frame; anything else
    happens between frames only. *)
Definition frame_step (pending : nat) (a : Action) : option nat :=
  match a with
  | Write ty c v =>
      if (ty =? e.EV_REL) && negb (v =? 0) then
        if (c =? e.REL_X) && (pending =? 0)%nat then Some 1%nat
        else if (c =? e.REL_Y) && (pending <=? 1)%nat then Some 2%nat
        else None
      else None
  | Syn => Some 0%nat
  | _ => if (pending =? 0)%nat then Some 0%nat else None
  end.

Fixpoint frames (pending : nat) (tr : list Action) : option nat :=
  match tr with
  | [] => Some pending
  | a :: tr' =>
      match frame_step pending a with
      | Some pending' => frames pending' tr'
      | None => None
      end
  end.

(** The sign bit of a float, if it has one. *)
Definition sign_bit (f : float) : option bool :=
  match f with
  | S754_zero s | S754_infinity s | S754_finite s _ _ => Some s
  | S754_nan => None
  end.

(** ** Inputs used as examples *)

Definition syn_event : InputEvent :=
  {| type := e.EV_SYN; code := 0; value := 0 |}.

Definition press_event : InputEvent :=
  {| type := e.EV_KEY; code := e.BTN_TOUCH; value := 1 |}.

Definition release_event : InputEvent :=
  {| type := e.EV_KEY; code := e.BTN_TOUCH; value := 0 |}.

Definition abs_event (axis v : Z) : InputEvent :=
  {| type := e.EV_ABS; code := axis; value := v |}.

Definition quiet : Live :=
  {| sensitivity := literal 1 1; enable_haptics := false;
     show_debug_borders := false |}.

(** A slow drag at sensitivity 0.5: one unit of movement, both deltas zero,
    nothing written but the frame sync, and the baseline moves all the same. *)
Definition slow_drag_cfg : Live :=
  {| sensitivity := literal 1 2; enable_haptics := true;
     show_debug_borders := false |}.

Definition slow_drag_state : TouchState :=
  {| touching := Some Left; x := 101; y := 50; last_x := 100; last_y := 50 |}.

Definition tick (cfg : Live) (ev : InputEvent) : Tick :=
  {| stop_is_set := false; live := cfg; event := ev |}.

Definition borders_on : Live :=
  {| sensitivity := literal 1 1; enable_haptics := true;
     show_debug_borders := true |}.

Definition idle_at_100 : TouchState :=
  {| touching := None; x := 100; y := 100; last_x := 0; last_y := 0 |}.

Definition both_ok : Startup :=
  {| uinput_ok := true; input_device_ok := true |}.

Definition stop_tick (ev : InputEvent) : Tick :=
  {| stop_is_set := true; live := quiet; event := ev |}.

Definition source_fails : Startup :=
  {| uinput_ok := true; input_device_ok := false |}.

Definition enabling_conf : Config :=
  Some {| conf_enable := Some true;
          conf_device_path := Some "/dev/input/event7";
          conf_sensitivity := Some (literal 2 1);
          conf_enable_haptics := None;
          conf_show_debug_borders := Some true |}.

(** * Part III: properties *)

(** The float operations are only unfolded on demand. *)
Arguments truediv : simpl never.
Arguments literal : simpl never.
Arguments resolve : simpl never.
Arguments scaled_delta : simpl never.
Arguments overlay_id : simpl never.

(** ** Binary64 facts *)

Lemma float_of_int_0 : float_of_int 0 = Ok (S754_zero false).
Proof. reflexivity. Qed.

Lemma float_den_pos (f : float) : 0 < float_den f.
Proof.
  destruct f; simpl; first [lia | apply Z.pow_pos_nonneg; lia].
Qed.

(** [int(f)] is the quotient of the exact numerator by the exact
    denominator, rounded toward zero. *)
Lemma int_of_float_quot (f : float) (d : Z) :
  int_of_float f = Ok d -> d = Z.quot (float_num f) (float_den f).
Proof.
  destruct f as [s | s | | s m ex]; simpl; intros H; try discriminate.
  - injection H as <-. reflexivity.
  - injection H as <-.
    destruct (Z.le_gt_cases 0 ex) as [Hex | Hex].
    + rewrite Z.max_r by lia. rewrite (Z.max_l 0 (- ex)) by lia.
      rewrite Z.pow_0_r, Z.quot_1_r, Z.shiftl_mul_pow2 by lia.
      unfold cond_Zopp. destruct s; [symmetry; apply Z.mul_opp_l | reflexivity].
    + rewrite Z.max_l by lia. rewrite (Z.max_r 0 (- ex)) by lia.
      rewrite Z.pow_0_r, Z.mul_1_r.
      rewrite Z.shiftl_div_pow2 by lia.
      assert (Hp : 0 < 2 ^ (- ex)) by (apply Z.pow_pos_nonneg; lia).
      unfold cond_Zopp. destruct s.
      * rewrite Z.quot_opp_l by lia.
        rewrite Z.quot_div_nonneg by lia. reflexivity.
      * rewrite Z.quot_div_nonneg by lia. reflexivity.
Qed.

Lemma quot_truncates (n d : Z) :
  0 < d ->
  Z.abs (Z.quot n d) * d <= Z.abs n < (Z.abs (Z.quot n d) + 1) * d
  /\ 0 <= Z.quot n d * n.
Proof.
  intros Hd.
  destruct (Z.le_gt_cases 0 n) as [Hn | Hn].
  - rewrite Z.quot_div_nonneg by lia.
    pose proof (Z.div_mod n d ltac:(lia)) as Hdm.
    pose proof (Z.mod_pos_bound n d Hd) as Hm.
    assert (0 <= n / d) by (apply Z.div_pos; lia).
    rewrite !Z.abs_eq by lia. nia.
  - replace n with (- (- n)) by lia.
    rewrite Z.quot_opp_l by lia.
    rewrite Z.quot_div_nonneg by lia.
    pose proof (Z.div_mod (- n) d ltac:(lia)) as Hdm.
    pose proof (Z.mod_pos_bound (- n) d Hd) as Hm.
    assert (0 <= - n / d) by (apply Z.div_pos; lia).
    rewrite !Z.abs_opp. rewrite !Z.abs_eq by lia. nia.
Qed.

(** No movement on an axis gives a zero delta, whatever the finite
    sensitivity. *)
Lemma scaled_delta_same (c : Z) (sens : float) :
  is_finite sens = true -> scaled_delta c c sens = Ok 0.
Proof.
  intros Hf. unfold scaled_delta, mul_int_float.
  rewrite Z.sub_diag, float_of_int_0.
  destruct sens; try discriminate; reflexivity.
Qed.

(** With an infinite or undefined sensitivity [int()] raises, even with no
    movement. *)
Lemma scaled_delta_same_raises (c : Z) (sens : float) :
  is_finite sens = false -> scaled_delta c c sens = Raise ValueError.
Proof.
  intros Hf. unfold scaled_delta, mul_int_float.
  rewrite Z.sub_diag, float_of_int_0.
  destruct sens; try discriminate; reflexivity.
Qed.

Lemma digits2_pos_iter_xO (m k : positive) :
  digits2_pos (Pos.iter xO m k) = (digits2_pos m + k)%positive.
Proof.
  revert m. induction k using Pos.peano_ind; intros m.
  - simpl. lia.
  - rewrite Pos.iter_succ. simpl. rewrite IHk. lia.
Qed.

Lemma Zpos_iter_xO (m k : positive) :
  Zpos (Pos.iter xO m k) = Zpos m * 2 ^ Zpos k.
Proof.
  revert m. induction k using Pos.peano_ind; intros m.
  - simpl. lia.
  - rewrite Pos.iter_succ. rewrite Pos2Z.inj_xO, IHk.
    rewrite Pos2Z.inj_succ, Z.pow_succ_r by lia. lia.
Qed.

Lemma digits2_pos_bound (m : positive) :
  2 ^ (Zpos (digits2_pos m) - 1) <= Zpos m < 2 ^ Zpos (digits2_pos m).
Proof.
  induction m; simpl digits2_pos.
  - rewrite Pos2Z.inj_succ, Z.pow_succ_r by lia.
    replace (Z.succ (Zpos (digits2_pos m)) - 1) with (Z.succ (Zpos (digits2_pos m) - 1)) by lia.
    rewrite Z.pow_succ_r by lia. lia.
  - rewrite Pos2Z.inj_succ, Z.pow_succ_r by lia.
    replace (Z.succ (Zpos (digits2_pos m)) - 1) with (Z.succ (Zpos (digits2_pos m) - 1)) by lia.
    rewrite Z.pow_succ_r by lia. lia.
  - simpl. lia.
Qed.

Lemma digits2_pos_le_53 (m : positive) :
  Zpos m < 2 ^ 53 -> Zpos (digits2_pos m) <= 53.
Proof.
  intros Hm. pose proof (digits2_pos_bound m) as [Hlo _].
  assert (H : 2 ^ (Zpos (digits2_pos m) - 1) < 2 ^ 53) by lia.
  apply Z.pow_lt_mono_r_iff in H; lia.
Qed.

Lemma fexp_normal (d : Z) : -1021 <= d -> fexp prec emax d = d - 53.
Proof. unfold fexp, emin, prec, emax. lia. Qed.

(** A 53-bit mantissa with an exponent in range is already rounded. *)
Lemma binary_round_aux_exact (s : bool) (M : positive) (E : Z) :
  Zpos (digits2_pos M) = 53 -> -1074 <= E <= 971 ->
  binary_round_aux prec emax s (Zpos M) E loc_Exact = S754_finite s M E.
Proof.
  intros HM HE.
  assert (Hshr : shr_fexp prec emax (Zpos M) E loc_Exact
                 = ({| shr_m := Zpos M; shr_r := false; shr_s := false |}, E)).
  { unfold shr_fexp. cbv [Zdigits2]. rewrite HM, fexp_normal by lia.
    replace (53 + E - 53 - E) with 0 by lia. reflexivity. }
  unfold binary_round_aux. rewrite Hshr.
  cbv [shr_m loc_of_shr_record round_nearest_even]. rewrite Hshr.
  cbv [shr_m]. unfold emax, prec.
  destruct (Z.leb_spec E (1024 - 53)); [reflexivity | lia].
Qed.

Lemma shr_fexp_exact (M : positive) (E : Z) :
  Zpos (digits2_pos M) = 53 -> -1074 <= E ->
  shr_fexp prec emax (Zpos M) E loc_Exact
  = ({| shr_m := Zpos M; shr_r := false; shr_s := false |}, E).
Proof.
  intros HM HE.
  unfold shr_fexp. cbv [Zdigits2]. rewrite HM, fexp_normal by lia.
  replace (53 + E - 53 - E) with 0 by lia. reflexivity.
Qed.

Lemma norm53_digits (m : positive) :
  Zpos (digits2_pos m) <= 53 -> Zpos (digits2_pos (norm53 m)) = 53.
Proof.
  intros Hd. unfold norm53.
  destruct (53 - Zpos (digits2_pos m)) as [| k | k] eqn:Hk; try lia.
  rewrite digits2_pos_iter_xO. lia.
Qed.

Lemma norm53_value (m : positive) :
  Zpos (digits2_pos m) <= 53 ->
  Zpos (norm53 m) = Zpos m * 2 ^ (53 - Zpos (digits2_pos m)).
Proof.
  intros Hd. unfold norm53.
  destruct (53 - Zpos (digits2_pos m)) as [| k | k] eqn:Hk; try lia.
  apply Zpos_iter_xO.
Qed.

Lemma binary_round_int (s : bool) (m : positive) :
  Zpos (digits2_pos m) <= 53 ->
  binary_round prec emax s m 0
  = S754_finite s (norm53 m) (Zpos (digits2_pos m) - 53).
Proof.
  intros Hd. unfold binary_round.
  rewrite fexp_normal by lia.
  unfold shl_align, norm53.
  replace (Zpos (digits2_pos m) + 0 - 53 - 0)
    with (- (53 - Zpos (digits2_pos m))) by lia.
  destruct (53 - Zpos (digits2_pos m)) as [| k | k] eqn:Hk; try lia.
  - cbv [Z.opp]. rewrite binary_round_aux_exact by lia.
    f_equal; lia.
  - cbv [Z.opp]. rewrite binary_round_aux_exact.
    + f_equal; lia.
    + rewrite digits2_pos_iter_xO. lia.
    + lia.
Qed.

Lemma div_eucl_exact (q d : Z) :
  0 < d -> Z.div_eucl (q * d) d = (q, 0).
Proof.
  intros Hd.
  assert (H : Z.div_eucl (q * d) d = ((q * d) / d, (q * d) mod d)).
  { unfold Z.div, Z.modulo. destruct (Z.div_eucl (q * d) d). reflexivity. }
  rewrite H, Z.div_mul, Z.mod_mul by lia. reflexivity.
Qed.

Lemma SFdiv_by_two (s : bool) (M : positive) (E : Z) :
  Zpos (digits2_pos M) = 53 -> -1000 <= E <= 900 ->
  SFdiv prec emax (S754_finite s M E) two = S754_finite s M (E - 1).
Proof.
  intros HM HE. unfold SFdiv, two, SFdiv_core_binary.
  cbv [Zdigits2]. rewrite HM.
  change (Zpos (digits2_pos 4503599627370496)) with 53.
  rewrite fexp_normal by lia.
  replace (Z.min (53 + E - (53 + -51) - 53) (E - -51)) with (E - 2) by lia.
  replace (E - -51 - (E - 2)) with 53 by lia.
  rewrite Z.shiftl_mul_pow2 by lia.
  replace (Zpos M * 2 ^ 53) with (Zpos M~0 * 4503599627370496) by lia.
  rewrite div_eucl_exact by lia.
  change (new_location 4503599627370496 0) with loc_Exact.
  rewrite xorb_false_r.
  assert (Hshr : shr_fexp prec emax (Zpos M~0) (E - 2) loc_Exact
                 = ({| shr_m := Zpos M; shr_r := false; shr_s := false |}, E - 1)).
  { unfold shr_fexp. cbv [Zdigits2 digits2_pos]. fold digits2_pos.
    rewrite Pos2Z.inj_succ, HM, fexp_normal by lia.
    replace (Z.succ 53 + (E - 2) - 53 - (E - 2)) with 1 by lia.
    cbv [shr shr_record_of_loc iter_pos shr_1]. f_equal. lia. }
  unfold binary_round_aux. rewrite Hshr.
  cbv [shr_m loc_of_shr_record round_nearest_even].
  rewrite shr_fexp_exact by lia.
  cbv [shr_m]. unfold emax, prec.
  destruct (Z.leb_spec (E - 1) (1024 - 53)); [reflexivity | lia].
Qed.

Lemma truediv_two_pos (s : bool) (m : positive) :
  Zpos m < 2 ^ 53 ->
  SFdiv prec emax (binary_round prec emax s m 0) two
  = S754_finite s (norm53 m) (Zpos (digits2_pos m) - 54).
Proof.
  intros Hm. pose proof (digits2_pos_le_53 m Hm) as Hd.
  rewrite binary_round_int by assumption.
  rewrite SFdiv_by_two.
  - f_equal; lia.
  - apply norm53_digits; assumption.
  - lia.
Qed.

Lemma int_lt_half (cx : Z) (s : bool) (m : positive) :
  Zpos m < 2 ^ 53 ->
  int_lt_float cx (S754_finite s (norm53 m) (Zpos (digits2_pos m) - 54))
  = (2 * cx <? cond_Zopp s (Zpos m)).
Proof.
  intros Hm. pose proof (digits2_pos_le_53 m Hm) as Hd.
  unfold int_lt_float.
  destruct (Z.leb_spec 0 (Zpos (digits2_pos m) - 54)); [lia |].
  rewrite norm53_value by assumption.
  replace (- (Zpos (digits2_pos m) - 54))
    with (Z.succ (53 - Zpos (digits2_pos m))) by lia.
  rewrite Z.pow_succ_r by lia.
  assert (Hp : 0 < 2 ^ (53 - Zpos (digits2_pos m)))
    by (apply Z.pow_pos_nonneg; lia).
  set (P := 2 ^ (53 - Zpos (digits2_pos m))) in *.
  unfold cond_Zopp.
  destruct s;
    match goal with
    | |- (?a <? ?b) = (?c <? ?d) =>
        destruct (Z.ltb_spec a b); destruct (Z.ltb_spec c d)
    end; try reflexivity; exfalso; nia.
Qed.

(** [x < w / 2] in Python, for a width that binary64 holds exactly, is the
    test [2 * x < w] on the integers. *)
Lemma resolve_exact (cx w : Z) :
  - 2 ^ 53 < w < 2 ^ 53 ->
  resolve cx w = if 2 * cx <? w then Left else Right.
Proof.
  intros Hw. unfold resolve, truediv.
  change (binary_normalize prec emax 2 0 false) with two.
  destruct w as [| m | m]; unfold binary_normalize.
  - cbv [SFdiv two xorb int_lt_float].
    destruct (Z.ltb_spec cx 0); destruct (Z.ltb_spec (2 * cx) 0);
      try reflexivity; exfalso; lia.
  - rewrite truediv_two_pos by lia. rewrite int_lt_half by lia. reflexivity.
  - rewrite truediv_two_pos by lia. rewrite int_lt_half by lia. reflexivity.
Qed.

Lemma iter_pos_shr_1 (k M : positive) :
  iter_pos shr_1 k
    {| shr_m := Zpos (Pos.iter xO M k); shr_r := false; shr_s := false |}
  = {| shr_m := Zpos M; shr_r := false; shr_s := false |}.
Proof.
  revert M. induction k as [k IH | k IH |]; intros M; simpl.
  - rewrite !IH. reflexivity.
  - rewrite !IH. reflexivity.
  - reflexivity.
Qed.

Lemma binary_round_aux_shifted (s : bool) (M k : positive) (E : Z) :
  Zpos (digits2_pos M) = 53 -> -1074 <= E <= 971 ->
  binary_round_aux prec emax s (Zpos (Pos.iter xO M k)) (E - Zpos k) loc_Exact
  = S754_finite s M E.
Proof.
  intros HM HE.
  assert (Hshr : shr_fexp prec emax (Zpos (Pos.iter xO M k)) (E - Zpos k)
                   loc_Exact
                 = ({| shr_m := Zpos M; shr_r := false; shr_s := false |}, E)).
  { unfold shr_fexp. cbv [Zdigits2]. rewrite digits2_pos_iter_xO.
    rewrite Pos2Z.inj_add, HM, fexp_normal by lia.
    replace (53 + Zpos k + (E - Zpos k) - 53 - (E - Zpos k)) with (Zpos k)
      by lia.
    cbv [shr shr_record_of_loc]. rewrite iter_pos_shr_1. f_equal. lia. }
  unfold binary_round_aux. rewrite Hshr.
  cbv [shr_m loc_of_shr_record round_nearest_even].
  rewrite shr_fexp_exact by lia.
  cbv [shr_m]. unfold emax, prec.
  destruct (Z.leb_spec E (1024 - 53)); [reflexivity | lia].
Qed.

Lemma SFmul_pow2 (s : bool) (M : positive) (E j : Z) :
  Zpos (digits2_pos M) = 53 -> -1074 <= E + j <= 971 ->
  SFmul prec emax (S754_finite s M E) (pow2_float j) = S754_finite s M (E + j).
Proof.
  intros HM HE. unfold SFmul, pow2_float.
  rewrite xorb_false_r.
  replace (M * 4503599627370496)%positive with (Pos.iter xO M 52).
  - replace (E + (j - 52)) with (E + j - 52) by lia.
    apply binary_round_aux_shifted; assumption.
  - apply Pos2Z.inj. rewrite Zpos_iter_xO, Pos2Z.inj_mul. reflexivity.
Qed.

Lemma float_of_int_pos (s : bool) (m : positive) :
  Zpos m < 2 ^ 53 ->
  float_of_int (cond_Zopp s (Zpos m))
  = Ok (S754_finite s (norm53 m) (Zpos (digits2_pos m) - 53)).
Proof.
  intros Hm. pose proof (digits2_pos_le_53 m Hm) as Hd.
  unfold float_of_int, binary_normalize.
  destruct s; cbv [cond_Zopp Z.opp]; rewrite binary_round_int by assumption;
    reflexivity.
Qed.

Lemma int_of_float_shifted (s : bool) (m : positive) (j : Z) :
  Zpos m < 2 ^ 53 -> 0 <= j ->
  int_of_float (S754_finite s (norm53 m) (Zpos (digits2_pos m) - 53 + j))
  = Ok (cond_Zopp s (Zpos m) * 2 ^ j).
Proof.
  intros Hm Hj. pose proof (digits2_pos_le_53 m Hm) as Hd.
  unfold int_of_float. f_equal.
  rewrite norm53_value by assumption.
  set (d := Zpos (digits2_pos m)) in *.
  assert (Hval : Z.shiftl (Zpos m * 2 ^ (53 - d)) (d - 53 + j)
                 = Zpos m * 2 ^ j).
  { destruct (Z.le_gt_cases 0 (d - 53 + j)) as [Hn | Hn].
    - rewrite Z.shiftl_mul_pow2 by lia.
      rewrite <- Z.mul_assoc, <- Z.pow_add_r by lia.
      f_equal. f_equal. lia.
    - rewrite Z.shiftl_div_pow2 by lia.
      replace (53 - d) with (j + - (d - 53 + j)) by lia.
      rewrite Z.pow_add_r by lia.
      rewrite Z.mul_assoc, Z.div_mul; [reflexivity |].
      apply Z.pow_nonzero; lia. }
  rewrite Hval. unfold cond_Zopp. destruct s; lia.
Qed.

(** With a sensitivity that is a power of two, a delta is the difference
    times that power, exactly. *)
Lemma scaled_delta_pow2 (cur last j : Z) :
  - 2 ^ 53 < cur - last < 2 ^ 53 -> 0 <= j <= 900 ->
  scaled_delta cur last (pow2_float j) = Ok ((cur - last) * 2 ^ j).
Proof.
  intros Ha Hj. unfold scaled_delta, mul_int_float.
  destruct (cur - last) as [| m | m] eqn:Hdiff.
  - reflexivity.
  - change (Zpos m) with (cond_Zopp false (Zpos m)) at 1.
    rewrite float_of_int_pos by lia.
    pose proof (digits2_pos_le_53 m ltac:(lia)) as Hd.
    rewrite SFmul_pow2; [| apply norm53_digits; assumption | lia].
    rewrite int_of_float_shifted by lia. reflexivity.
  - change (Zneg m) with (cond_Zopp true (Zpos m)) at 1.
    rewrite float_of_int_pos by lia.
    pose proof (digits2_pos_le_53 m ltac:(lia)) as Hd.
    rewrite SFmul_pow2; [| apply norm53_digits; assumption | lia].
    rewrite int_of_float_shifted by lia. reflexivity.
Qed.

(** The literals [1.0] and [2.0]. *)
Lemma literal_1 : literal 1 1 = pow2_float 0.
Proof. vm_compute. reflexivity. Qed.

Lemma literal_2 : literal 2 1 = pow2_float 1.
Proof. vm_compute. reflexivity. Qed.

Lemma Qlt_half (cx w : Z) :
  (inject_Z cx < inject_Z w / 2)%Q <-> 2 * cx < w.
Proof.
  unfold Qlt, Qdiv, Qmult, Qinv, inject_Z. cbn [Qnum Qden]. lia.
Qed.

Lemma half_screen_width :
  truediv SCREEN_WIDTH 2 = S754_finite false 8444249301319680 (-43).
Proof. vm_compute. reflexivity. Qed.

Lemma resolve_screen (cx : Z) :
  resolve cx SCREEN_WIDTH = if cx <? 960 then Left else Right.
Proof.
  unfold resolve. rewrite half_screen_width. unfold int_lt_float.
  change (0 <=? -43) with false. cbv iota.
  change (cond_Zopp false 8444249301319680) with (960 * 2 ^ 43).
  change (- -43) with 43.
  destruct (Z.ltb_spec (cx * 2 ^ 43) (960 * 2 ^ 43));
    destruct (Z.ltb_spec cx 960); try reflexivity; exfalso; lia.
Qed.

Lemma half_covers (side : Side) (cx : Z) :
  0 <= cx < SCREEN_WIDTH ->
  (match side with Left => 0 | Right => 960 end <= cx
     < match side with Left => 0 | Right => 960 end + 960
   <-> resolve cx SCREEN_WIDTH = side).
Proof.
  intros Hcx. unfold SCREEN_WIDTH in Hcx. rewrite resolve_screen.
  destruct side; destruct (Z.ltb_spec cx 960); split; intros H';
    first [reflexivity | discriminate H' | lia].
Qed.

(** ** One turn of the loop, case by case *)

Ltac bool_hyps :=
  repeat match goal with
    | H : _ && _ = true |- _ => apply andb_true_iff in H; destruct H
    | H : (_ =? _) = true |- _ => apply Z.eqb_eq in H
    | H : negb _ = true |- _ => apply negb_true_iff in H
    end.

Lemma bind_ok {A B} (t : list Action) (a : A) (f : A -> M B) :
  bind (t, Ok a) f = (t ++ trace (f a), outcome (f a)).
Proof. unfold bind, trace, outcome. destruct (f a). reflexivity. Qed.

Lemma bind_raise {A B} (t : list Action) (ex : exc) (f : A -> M B) :
  bind (t, Raise ex) f = (t, Raise ex).
Proof. reflexivity. Qed.

Lemma is_touching_some (st : TouchState) :
  is_touching st = true <-> exists held, touching st = Some held.
Proof.
  unfold is_touching. destruct (touching st) as [h |]; split; intros H.
  - exists h. reflexivity.
  - reflexivity.
  - discriminate.
  - destruct H as [h H]. discriminate.
Qed.

Lemma is_touching_none (st : TouchState) :
  is_touching st = false <-> touching st = None.
Proof.
  unfold is_touching. destruct (touching st); split; intros H;
    try reflexivity; discriminate.
Qed.

Lemma collect_coordinates_touching (st : TouchState) (ev : InputEvent) :
  touching (collect_coordinates st ev) = touching st
  /\ last_x (collect_coordinates st ev) = last_x st
  /\ last_y (collect_coordinates st ev) = last_y st.
Proof.
  unfold collect_coordinates.
  destruct (type ev =? e.EV_ABS), (code ev =? e.ABS_X), (code ev =? e.ABS_Y);
    simpl; auto.
Qed.

Lemma collect_coordinates_not_abs (st : TouchState) (ev : InputEvent) :
  type ev <> e.EV_ABS -> collect_coordinates st ev = st.
Proof.
  intros H. unfold collect_coordinates.
  destruct (Z.eqb_spec (type ev) e.EV_ABS); [contradiction | reflexivity].
Qed.

Lemma collect_coordinates_xy (st : TouchState) (ev : InputEvent) :
  x (collect_coordinates st ev) = axis_step e.ABS_X (x st) ev
  /\ y (collect_coordinates st ev) = axis_step e.ABS_Y (y st) ev.
Proof.
  unfold collect_coordinates, axis_step.
  destruct (type ev =? e.EV_ABS); simpl; [| auto].
  destruct (Z.eqb_spec (code ev) e.ABS_X) as [Hc | Hc].
  - rewrite Hc. simpl. auto.
  - destruct (code ev =? e.ABS_Y); simpl; auto.
Qed.

Lemma loop_body_touch_start (cfg : Live) (st : TouchState) (ev : InputEvent) :
  touch_start st ev = true ->
  loop_body cfg st ev =
    (haptic_pulse cfg ++ border_shown cfg (resolve (x st) SCREEN_WIDTH),
     Ok {| touching := Some (resolve (x st) SCREEN_WIDTH);
           x := x st; y := y st; last_x := x st; last_y := y st |}).
Proof.
  unfold touch_start, is_press, is_touch_button. intros H. bool_hyps.
  unfold loop_body. rewrite collect_coordinates_not_abs
    by (match goal with H : type ev = _ |- _ => rewrite H end; discriminate).
  unfold handle_touch, handle_movement, haptic_pulse, border_shown.
  repeat match goal with H : _ = _ |- _ => rewrite H end.
  simpl. destruct (enable_haptics cfg), (show_debug_borders cfg); reflexivity.
Qed.

Lemma loop_body_touch_end (cfg : Live) (st : TouchState) (ev : InputEvent)
    (held : Side) :
  is_release ev = true -> touching st = Some held ->
  loop_body cfg st ev =
    (border_removed cfg held,
     Ok {| touching := None; x := x st; y := y st;
           last_x := last_x st; last_y := last_y st |}).
Proof.
  unfold is_release, is_touch_button. intros H Ht. bool_hyps.
  unfold loop_body. rewrite collect_coordinates_not_abs
    by (match goal with H : type ev = _ |- _ => rewrite H end; discriminate).
  unfold handle_touch, handle_movement, border_removed, is_touching.
  repeat match goal with H : _ = _ |- _ => rewrite H end.
  simpl. destruct (show_debug_borders cfg); reflexivity.
Qed.

Lemma loop_body_sync (cfg : Live) (st : TouchState) (ev : InputEvent) :
  sync_while_touching st ev = true ->
  loop_body cfg st ev =
    match scaled_delta (x st) (last_x st) (sensitivity cfg),
          scaled_delta (y st) (last_y st) (sensitivity cfg) with
    | Ok dx, Ok dy =>
        (delta_writes dx dy ++ [Syn],
         Ok {| touching := touching st; x := x st; y := y st;
               last_x := x st; last_y := y st |})
    | Ok _, Raise ex => ([], Raise ex)
    | Raise ex, _ => ([], Raise ex)
    end.
Proof.
  unfold sync_while_touching. intros H. bool_hyps.
  unfold loop_body. rewrite collect_coordinates_not_abs
    by (match goal with H : type ev = _ |- _ => rewrite H end; discriminate).
  unfold handle_touch, handle_movement, delta_writes.
  repeat match goal with H : _ = _ |- _ => rewrite H end.
  simpl.
  repeat match goal with H : _ = _ |- _ => rewrite H end.
  destruct (scaled_delta (x st) (last_x st) (sensitivity cfg)) as [dx | ex];
    [| reflexivity].
  destruct (scaled_delta (y st) (last_y st) (sensitivity cfg)) as [dy | ex];
    [| reflexivity].
  simpl. destruct (dx =? 0), (dy =? 0); reflexivity.
Qed.

Lemma loop_body_other (cfg : Live) (st : TouchState) (ev : InputEvent) :
  touch_start st ev = false -> touch_end st ev = false ->
  sync_while_touching st ev = false ->
  loop_body cfg st ev = ([], Ok (collect_coordinates st ev)).
Proof.
  unfold touch_start, touch_end, sync_while_touching, is_press, is_release,
    is_touch_button.
  intros Hs He Hy.
  destruct (collect_coordinates_touching st ev) as [Ht _].
  unfold loop_body, handle_touch, handle_movement, is_touching in *.
  rewrite Ht.
  destruct (type ev =? e.EV_KEY) eqn:Hk; simpl in *.
  - apply Z.eqb_eq in Hk.
    rewrite collect_coordinates_not_abs by (rewrite Hk; discriminate).
    rewrite Hk in *. simpl in *.
    destruct (code ev =? e.BTN_TOUCH); simpl in *; [| reflexivity].
    destruct (value ev =? 1), (value ev =? 0), (touching st);
      simpl in *; try discriminate; reflexivity.
  - destruct (type ev =? e.EV_SYN); simpl in *; [| reflexivity].
    rewrite Ht. destruct (touching st); [discriminate | reflexivity].
Qed.

Lemma touch_end_release (st : TouchState) (ev : InputEvent) :
  touch_end st ev = true ->
  is_release ev = true /\ exists held, touching st = Some held.
Proof.
  unfold touch_end. intros H. apply andb_true_iff in H as [Hr Ht].
  split; [assumption | apply is_touching_some; assumption].
Qed.

Lemma loop_body_cases (cfg : Live) (st : TouchState) (ev : InputEvent) :
  (touch_start st ev = true)
  \/ (touch_start st ev = false /\ touch_end st ev = true)
  \/ (touch_start st ev = false /\ touch_end st ev = false
      /\ sync_while_touching st ev = true)
  \/ (touch_start st ev = false /\ touch_end st ev = false
      /\ sync_while_touching st ev = false).
Proof.
  destruct (touch_start st ev), (touch_end st ev),
    (sync_while_touching st ev); auto 10.
Qed.

(** A turn that is not a release leaves a held side as it is. *)
Lemma loop_body_keeps_side (cfg : Live) (st st' : TouchState)
    (ev : InputEvent) (held : Side) (tr : list Action) :
  touching st = Some held -> is_release ev = false ->
  loop_body cfg st ev = (tr, Ok st') -> touching st' = Some held.
Proof.
  intros Ht Hr Hrun.
  assert (Hts : touch_start st ev = false).
  { unfold touch_start, is_touching. rewrite Ht. apply andb_false_r. }
  assert (Hte : touch_end st ev = false).
  { unfold touch_end. rewrite Hr. reflexivity. }
  destruct (sync_while_touching st ev) eqn:Hsy.
  - rewrite loop_body_sync in Hrun by assumption.
    destruct (scaled_delta (x st) (last_x st) (sensitivity cfg));
      [| discriminate].
    destruct (scaled_delta (y st) (last_y st) (sensitivity cfg));
      [| discriminate].
    injection Hrun as _ <-. assumption.
  - rewrite loop_body_other in Hrun by assumption.
    injection Hrun as _ <-.
    destruct (collect_coordinates_touching st ev) as [-> _]. assumption.
Qed.

Lemma loop_body_idle (cfg : Live) (st : TouchState) (ev : InputEvent) :
  touching st = None -> is_press ev = false ->
  loop_body cfg st ev = ([], Ok (collect_coordinates st ev)).
Proof.
  intros Ht Hp. apply loop_body_other.
  - unfold touch_start. rewrite Hp. reflexivity.
  - unfold touch_end, is_touching. rewrite Ht. apply andb_false_r.
  - unfold sync_while_touching, is_touching. rewrite Ht. apply andb_false_r.
Qed.

(** ** Runs of the loop *)

Lemma read_loop_stop (st : TouchState) (t : Tick) (rest : list Tick) :
  stop_is_set t = true -> read_loop st (t :: rest) = ret st.
Proof. intros H. simpl. rewrite H. reflexivity. Qed.

Lemma read_loop_go (st : TouchState) (t : Tick) (rest : list Tick) :
  stop_is_set t = false ->
  read_loop st (t :: rest)
  = bind (loop_body (live t) st (event t)) (fun st' => read_loop st' rest).
Proof. intros H. simpl. rewrite H. reflexivity. Qed.

Lemma trace_read_loop_go (st : TouchState) (t : Tick) (rest : list Tick) :
  stop_is_set t = false ->
  trace (read_loop st (t :: rest))
  = trace (loop_body (live t) st (event t)) ++
    match outcome (loop_body (live t) st (event t)) with
    | Ok st' => trace (read_loop st' rest)
    | Raise _ => []
    end.
Proof.
  intros H. rewrite read_loop_go by assumption.
  destruct (loop_body (live t) st (event t)) as [tr [st' | ex]].
  - rewrite bind_ok. reflexivity.
  - rewrite bind_raise. simpl. rewrite app_nil_r. reflexivity.
Qed.

Lemma read_loop_cut (pre : list Tick) (st : TouchState) (t : Tick)
    (rest : list Tick) :
  stop_is_set t = true ->
  read_loop st (pre ++ t :: rest) = read_loop st pre.
Proof.
  intros Hstop. revert st.
  induction pre as [| p pre IH]; intros st.
  - simpl. rewrite Hstop. reflexivity.
  - simpl. destruct (stop_is_set p); [reflexivity |].
    destruct (loop_body (live p) st (event p)) as [tr [st1 | ex]].
    + rewrite !bind_ok, IH. reflexivity.
    + reflexivity.
Qed.

Lemma close_calls_app (t1 t2 : list Action) :
  close_calls (t1 ++ t2) = (close_calls t1 + close_calls t2)%nat.
Proof. unfold close_calls. rewrite filter_app, length_app. reflexivity. Qed.

Lemma loop_body_no_close (cfg : Live) (st : TouchState) (ev : InputEvent) :
  close_calls (trace (loop_body cfg st ev)) = 0%nat.
Proof.
  destruct (loop_body_cases cfg st ev)
    as [Hts | [[Hts Hte] | [(Hts & Hte & Hsy) | (Hts & Hte & Hsy)]]].
  - rewrite loop_body_touch_start by assumption.
    unfold haptic_pulse, border_shown.
    destruct (enable_haptics cfg), (show_debug_borders cfg); reflexivity.
  - apply touch_end_release in Hte as [Hr [held Ht]].
    rewrite (loop_body_touch_end cfg st ev held) by assumption.
    unfold border_removed. destruct (show_debug_borders cfg); reflexivity.
  - rewrite loop_body_sync by assumption.
    destruct (scaled_delta (x st) (last_x st) (sensitivity cfg)) as [dx |];
      [| reflexivity].
    destruct (scaled_delta (y st) (last_y st) (sensitivity cfg)) as [dy |];
      [| reflexivity].
    unfold delta_writes. destruct (dx =? 0), (dy =? 0); reflexivity.
  - rewrite loop_body_other by assumption. reflexivity.
Qed.

Lemma read_loop_no_close (ticks : list Tick) (st : TouchState) :
  close_calls (trace (read_loop st ticks)) = 0%nat.
Proof.
  revert st. induction ticks as [| t rest IH]; intros st; [reflexivity |].
  destruct (stop_is_set t) eqn:Hstop.
  - rewrite read_loop_stop by assumption. reflexivity.
  - rewrite trace_read_loop_go by assumption.
    rewrite close_calls_app, loop_body_no_close.
    destruct (outcome (loop_body (live t) st (event t)));
      [apply IH | reflexivity].
Qed.

Lemma started_thread_both_ok (env : Startup) (ticks : list Tick) :
  uinput_ok env = true -> input_device_ok env = true ->
  started_thread env ticks
  = match read_loop initial_state ticks with
    | (tr, Ok _) => ([UInputCreate; OpenSource] ++ tr ++ [Close], Ok tt)
    | (tr, Raise ex) => ([UInputCreate; OpenSource] ++ tr, Raise ex)
    end.
Proof.
  intros Hu Hi. unfold started_thread, loop_and_close. rewrite Hu, Hi.
  destruct (read_loop initial_state ticks) as [tr [st | ex]]; reflexivity.
Qed.

Lemma loop_and_close_run (ticks : list Tick) :
  loop_and_close ticks
  = match read_loop initial_state ticks with
    | (tr, Ok _) => (tr ++ [Close], Ok tt)
    | (tr, Raise ex) => (tr, Raise ex)
    end.
Proof.
  unfold loop_and_close.
  destruct (read_loop initial_state ticks) as [tr [st | ex]]; reflexivity.
Qed.

(** The two [AbsInfo] calls leave out [resolution]. *)
Lemma AbsInfo_axis_kwargs :
  AbsInfo axis_kwargs = None
  /\ forall r : Z,
       AbsInfo (axis_kwargs ++ [("resolution", r)])
       = Some [0; -32768; 32767; 16; 128; r].
Proof. split; [reflexivity | intros r; reflexivity]. Qed.

Lemma capabilities_raises : capabilities = None.
Proof. reflexivity. Qed.

(** So the function, as the source stands, logs and returns. *)
Lemma input_thread_loop_logs (env : Startup) (ticks : list Tick) :
  _input_thread_loop env ticks = ([LogError], Ok tt).
Proof. unfold _input_thread_loop. rewrite capabilities_raises. reflexivity. Qed.

(** ** What a turn writes *)

Lemma In_delta_writes_x (dx dy v : Z) :
  In (Write e.EV_REL e.REL_X v) (delta_writes dx dy ++ [Syn])
  <-> v = dx /\ dx <> 0.
Proof.
  unfold delta_writes.
  destruct (Z.eqb_spec dx 0), (Z.eqb_spec dy 0); simpl; split; intros H;
    repeat match goal with
      | H : _ \/ _ |- _ => destruct H
      | H : _ /\ _ |- _ => destruct H
      | H : False |- _ => destruct H
      | H : Write _ _ _ = Write _ _ _ |- _ => injection H as H
      | H : _ = _ |- _ => discriminate H
      end; subst; auto; try contradiction; try lia.
Qed.

Lemma In_delta_writes_y (dx dy v : Z) :
  In (Write e.EV_REL e.REL_Y v) (delta_writes dx dy ++ [Syn])
  <-> v = dy /\ dy <> 0.
Proof.
  unfold delta_writes.
  destruct (Z.eqb_spec dx 0), (Z.eqb_spec dy 0); simpl; split; intros H;
    repeat match goal with
      | H : _ \/ _ |- _ => destruct H
      | H : _ /\ _ |- _ => destruct H
      | H : False |- _ => destruct H
      | H : Write _ _ _ = Write _ _ _ |- _ => injection H as H
      | H : _ = _ |- _ => discriminate H
      end; subst; auto; try contradiction; try lia.
Qed.

Lemma syn_calls_delta_writes (dx dy : Z) :
  syn_calls (delta_writes dx dy ++ [Syn]) = 1%nat.
Proof.
  unfold delta_writes, syn_calls.
  destruct (dx =? 0), (dy =? 0); reflexivity.
Qed.

Lemma overlay_log_app (t1 t2 : list Action) :
  overlay_log (t1 ++ t2) = overlay_log t1 ++ overlay_log t2.
Proof.
  induction t1 as [| a t1 IH]; simpl; [reflexivity |].
  destruct (overlay_cmd a); simpl; rewrite IH; reflexivity.
Qed.

Lemma overlay_log_haptic_pulse (cfg : Live) :
  overlay_log (haptic_pulse cfg) = [].
Proof. unfold haptic_pulse. destruct (enable_haptics cfg); reflexivity. Qed.

Lemma overlay_log_delta_writes (dx dy : Z) :
  overlay_log (delta_writes dx dy ++ [Syn]) = [].
Proof.
  unfold delta_writes. destruct (dx =? 0), (dy =? 0); reflexivity.
Qed.

Lemma overlay_log_border_shown (cfg : Live) (side : Side) :
  show_debug_borders cfg = true ->
  overlay_log (border_shown cfg side) = [Show (overlay_id side)].
Proof.
  intros H. unfold border_shown. rewrite H. destruct side; reflexivity.
Qed.

Lemma overlay_log_border_removed (cfg : Live) (side : Side) :
  show_debug_borders cfg = true ->
  overlay_log (border_removed cfg side) = [Hide (overlay_id side)].
Proof.
  intros H. unfold border_removed. rewrite H. destruct side; reflexivity.
Qed.

Lemma border_rect_fields (side : Side) :
  get "type" (border_rect side) = Some (PStr "overlay")
  /\ get "id" (border_rect side)
     = Some (PStr (String.append "sps_debug_" (side_str side)))
  /\ get_int "x" (border_rect side)
     = Some (match side with Left => 0 | Right => 960 end)
  /\ get_int "y" (border_rect side) = Some 0
  /\ get_int "width" (border_rect side) = Some 960
  /\ get_int "height" (border_rect side) = Some SCREEN_HEIGHT
  /\ get "color" (border_rect side)
     = Some (PTuple [PInt 255; PInt 0; PInt 0; PInt 100])
  /\ get "border_size" (border_rect side) = Some (PInt 5)
  /\ get "remove" (border_rect side) = None.
Proof.
  destruct side; vm_compute; repeat split; reflexivity.
Qed.

Lemma read_loop_paired (ticks : list Tick) (st : TouchState) :
  Forall (fun t => show_debug_borders (live t) = true) ticks ->
  paired (shown_id st) (overlay_log (trace (read_loop st ticks))) = true.
Proof.
  intros Hall. revert st.
  induction Hall as [| t rest Hb _ IH]; intros st; [reflexivity |].
  destruct (stop_is_set t) eqn:Hstop.
  { rewrite read_loop_stop by assumption. reflexivity. }
  rewrite trace_read_loop_go by assumption.
  rewrite overlay_log_app.
  destruct (loop_body_cases (live t) st (event t))
    as [Hts | [[Hts Hte] | [(Hts & Hte & Hsy) | (Hts & Hte & Hsy)]]].
  - rewrite loop_body_touch_start by assumption.
    cbn [trace outcome fst snd].
    rewrite overlay_log_app, overlay_log_haptic_pulse,
      overlay_log_border_shown by assumption.
    assert (Hidle : touching st = None).
    { unfold touch_start in Hts. apply andb_true_iff in Hts as [_ Hn].
      apply negb_true_iff in Hn. apply is_touching_none. assumption. }
    unfold shown_id at 1. rewrite Hidle. simpl.
    apply (IH {| touching := Some (resolve (x st) SCREEN_WIDTH);
                 x := x st; y := y st; last_x := x st; last_y := y st |}).
  - apply touch_end_release in Hte as [Hr [held Ht]].
    rewrite (loop_body_touch_end _ st _ held) by assumption.
    cbn [trace outcome fst snd].
    rewrite overlay_log_border_removed by assumption.
    unfold shown_id at 1. rewrite Ht. simpl.
    rewrite String.eqb_refl. simpl.
    apply (IH {| touching := None; x := x st; y := y st;
                 last_x := last_x st; last_y := last_y st |}).
  - rewrite loop_body_sync by assumption.
    destruct (scaled_delta (x st) (last_x st) (sensitivity (live t)));
      [| destruct (shown_id st); reflexivity].
    destruct (scaled_delta (y st) (last_y st) (sensitivity (live t)));
      [| destruct (shown_id st); reflexivity].
    cbn [trace outcome fst snd].
    rewrite overlay_log_delta_writes. simpl.
    apply (IH {| touching := touching st; x := x st; y := y st;
                 last_x := x st; last_y := y st |}).
  - rewrite loop_body_other by assumption.
    cbn [trace outcome fst snd]. simpl.
    replace (shown_id st) with (shown_id (collect_coordinates st (event t))).
    + apply IH.
    + unfold shown_id.
      destruct (collect_coordinates_touching st (event t)) as [-> _].
      reflexivity.
Qed.

Lemma rel_sum_app (axis : Z) (t1 t2 : list Action) :
  rel_sum axis (t1 ++ t2) = rel_sum axis t1 + rel_sum axis t2.
Proof.
  induction t1 as [| a t1 IH]; [reflexivity |].
  destruct a; simpl; try exact IH.
  destruct ((etype =? e.EV_REL) && (ecode =? axis)); lia.
Qed.

Lemma rel_sum_delta_writes (dx dy : Z) :
  rel_sum e.REL_X (delta_writes dx dy ++ [Syn]) = dx
  /\ rel_sum e.REL_Y (delta_writes dx dy ++ [Syn]) = dy.
Proof.
  unfold delta_writes.
  destruct (Z.eqb_spec dx 0), (Z.eqb_spec dy 0); simpl; lia.
Qed.

Lemma collect_coordinates_in_range (st : TouchState) (ev : InputEvent) :
  in_range st -> fits_s32 (value ev) -> in_range (collect_coordinates st ev).
Proof.
  unfold in_range, collect_coordinates. intros (Hx & Hy & Hlx & Hly) Hv.
  destruct (type ev =? e.EV_ABS), (code ev =? e.ABS_X), (code ev =? e.ABS_Y);
    simpl; auto.
Qed.

(** Within one touch at sensitivity 1.0, the moves written on each axis add
    up to the displacement of the baseline. *)
Lemma read_loop_unit_drag (ticks : list Tick) (st : TouchState)
    (held : Side) :
  touching st = Some held -> in_range st -> Forall unit_drag ticks ->
  exists (tr : list Action) (st' : TouchState),
    read_loop st ticks = (tr, Ok st')
    /\ rel_sum e.REL_X tr = last_x st' - last_x st
    /\ rel_sum e.REL_Y tr = last_y st' - last_y st.
Proof.
  intros Ht Hr Hall. revert st Ht Hr.
  induction Hall as [| t rest (Hrel & Hsens & Hfit) _ IH]; intros st Ht Hr.
  - exists [], st. simpl. repeat split; lia.
  - destruct (stop_is_set t) eqn:Hstop.
    { exists [], st. rewrite read_loop_stop by assumption.
      repeat split; simpl; lia. }
    rewrite read_loop_go by assumption.
    assert (Hts : touch_start st (event t) = false).
    { unfold touch_start, is_touching. rewrite Ht. apply andb_false_r. }
    assert (Hte : touch_end st (event t) = false).
    { unfold touch_end. rewrite Hrel. reflexivity. }
    destruct (sync_while_touching st (event t)) eqn:Hsy.
    + rewrite loop_body_sync by assumption.
      destruct Hr as (Hx & Hy & Hlx & Hly). unfold fits_s32 in *.
      rewrite Hsens, !scaled_delta_pow2 by lia.
      rewrite !Z.pow_0_r, !Z.mul_1_r.
      destruct (IH {| touching := touching st; x := x st; y := y st;
                      last_x := x st; last_y := y st |})
        as (tr & st' & Hrun & Hsx & Hsy'); [exact Ht | |].
      { unfold in_range, fits_s32. simpl. lia. }
      exists ((delta_writes (x st - last_x st) (y st - last_y st) ++ [Syn])
              ++ tr), st'.
      rewrite bind_ok, Hrun. split; [reflexivity |].
      destruct (rel_sum_delta_writes (x st - last_x st) (y st - last_y st))
        as [Hdx Hdy].
      rewrite (rel_sum_app e.REL_X (delta_writes _ _ ++ [Syn]) tr).
      rewrite (rel_sum_app e.REL_Y (delta_writes _ _ ++ [Syn]) tr).
      rewrite Hdx, Hdy, Hsx, Hsy'. simpl. lia.
    + rewrite loop_body_other by assumption.
      destruct (collect_coordinates_touching st (event t))
        as (Hct & Hclx & Hcly).
      destruct (IH (collect_coordinates st (event t)))
        as (tr & st' & Hrun & Hsx & Hsy'); [congruence | |].
      { apply collect_coordinates_in_range; assumption. }
      exists tr, st'. rewrite bind_ok, Hrun. split; [reflexivity |].
      rewrite Hsx, Hsy', Hclx, Hcly. split; reflexivity.
Qed.

(** With such sensitivities [int()] never raises: the loop returns. *)
Lemma read_loop_returns (ticks : list Tick) (st : TouchState) :
  in_range st -> Forall plain_tick ticks ->
  exists st' : TouchState, outcome (read_loop st ticks) = Ok st'.
Proof.
  intros Hr Hall. revert st Hr.
  induction Hall as [| t rest ((j & Hj & Hsens) & Hfit) _ IH]; intros st Hr.
  - exists st. reflexivity.
  - destruct (stop_is_set t) eqn:Hstop.
    { exists st. rewrite read_loop_stop by assumption. reflexivity. }
    rewrite read_loop_go by assumption.
    assert (Hnext : forall (tr : list Action) (st1 : TouchState),
               in_range st1 ->
               exists st', outcome (bind (tr, Ok st1)
                             (fun st2 => read_loop st2 rest)) = Ok st').
    { intros tr st1 Hr1. rewrite bind_ok. apply IH. assumption. }
    pose proof Hr as (Hx & Hy & Hlx & Hly).
    destruct (loop_body_cases (live t) st (event t))
      as [Hts | [[Hts Hte] | [(Hts & Hte & Hsy) | (Hts & Hte & Hsy)]]].
    + rewrite loop_body_touch_start by assumption. apply Hnext.
      unfold in_range. simpl. auto.
    + apply touch_end_release in Hte as [Hrel [held Ht]].
      rewrite (loop_body_touch_end _ st _ held) by assumption. apply Hnext.
      unfold in_range. simpl. auto.
    + rewrite loop_body_sync by assumption.
      unfold fits_s32 in *.
      rewrite Hsens, !scaled_delta_pow2 by lia. apply Hnext.
      unfold in_range, fits_s32. simpl. auto.
    + rewrite loop_body_other by assumption. apply Hnext.
      apply collect_coordinates_in_range; assumption.
Qed.

(** ** Thread management *)

Lemma update_same (p : Plugin) (conf : Config) :
  enabled p = new_enabled conf ->
  touch_device_path p = Some (new_device_path conf) ->
  update p conf =
    ({| enabled := enabled p;
        touch_device_path := touch_device_path p;
        attrs := new_attrs conf;
        input_thread := input_thread p;
        threads_made := threads_made p |}, []).
Proof.
  intros He Hp. unfold update. rewrite He, Hp. simpl.
  rewrite Bool.eqb_reflx, String.eqb_refl. reflexivity.
Qed.

Lemma update_never_two (p : Plugin) (conf : Config) (alive : list nat)
    (rest : list ThreadOp) :
  owned p alive ->
  (forall alive', owned (fst (update p conf)) alive' ->
                  never_two alive' rest = true) ->
  never_two alive (snd (update p conf) ++ rest) = true.
Proof.
  intros Hown Hrest. unfold update in *.
  destruct (negb (Bool.eqb (enabled p) (new_enabled conf))
            || negb (path_eqb (touch_device_path p) (new_device_path conf))).
  - revert Hrest.
    destruct Hown as [-> | (t & -> & ->)].
    + destruct (input_thread p) as [t |], (new_enabled conf);
        cbn [fst snd app]; intros Hrest; simpl;
        apply Hrest; unfold owned; cbn [input_thread]; eauto.
    + destruct (new_enabled conf);
        cbn [fst snd app]; intros Hrest; simpl; rewrite Nat.eqb_refl; simpl;
        apply Hrest; unfold owned; cbn [input_thread]; eauto.
  - cbn [fst snd app] in *.
    apply Hrest. destruct Hown as [-> | (t & -> & Ht)];
      unfold owned; cbn [input_thread]; eauto.
Qed.

Lemma run_updates_never_two (confs : list Config) (p : Plugin)
    (alive : list nat) :
  owned p alive -> never_two alive (snd (run_updates p confs)) = true.
Proof.
  revert p alive. induction confs as [| conf rest IH]; intros p alive Hown.
  - simpl. destruct Hown as [-> | (t & -> & _)]; reflexivity.
  - simpl. destruct (update p conf) as [p1 ops1] eqn:Hup.
    destruct (run_updates p1 rest) as [p2 ops2] eqn:Hrun. cbn [snd].
    replace ops1 with (snd (update p conf)) by (rewrite Hup; reflexivity).
    apply update_never_two; [assumption |].
    intros alive' Hown'. rewrite Hup in Hown'. cbn [fst] in Hown'.
    specialize (IH p1 alive' Hown'). rewrite Hrun in IH. exact IH.
Qed.

Lemma run_updates_repeat_same (p : Plugin) (conf : Config) (n : nat) :
  enabled p = new_enabled conf ->
  touch_device_path p = Some (new_device_path conf) ->
  snd (run_updates p (repeat conf n)) = []
  /\ input_thread (fst (run_updates p (repeat conf n))) = input_thread p.
Proof.
  revert p. induction n as [| n IH]; intros p He Hp.
  - split; reflexivity.
  - simpl. rewrite update_same by assumption.
    set (p1 := {| enabled := enabled p;
                  touch_device_path := touch_device_path p;
                  attrs := new_attrs conf;
                  input_thread := input_thread p;
                  threads_made := threads_made p |}).
    destruct (IH p1 He Hp) as [Hops Hthread].
    destruct (run_updates p1 (repeat conf n)) as [p2 ops2].
    cbn [fst snd] in *. rewrite Hops. split; [reflexivity | exact Hthread].
Qed.

(** ** The baseline [last_x], [last_y] *)

(** C1 (as amended): [last_x]/[last_y] are set to the current [x]/[y] at
    touch-start and after every sync frame processed while touching,
    whatever the deltas written; no other turn of the loop changes them.  So
    deltas never double-count: at sensitivity 1.0 the moves written during a
    touch add up, on each axis, to the displacement of the baseline. *)
Theorem last_xy_follow_every_sync :
  (forall (cfg : Live) (st st' : TouchState) (ev : InputEvent)
          (tr : list Action),
      loop_body cfg st ev = (tr, Ok st') ->
      if touch_start st ev || sync_while_touching st ev
      then last_x st' = x st /\ last_y st' = y st
           /\ x st' = x st /\ y st' = y st
      else last_x st' = last_x st /\ last_y st' = last_y st)
  /\
  (forall (ticks : list Tick) (st : TouchState) (held : Side),
      touching st = Some held -> in_range st -> Forall unit_drag ticks ->
      exists (tr : list Action) (st' : TouchState),
        read_loop st ticks = (tr, Ok st')
        /\ rel_sum e.REL_X tr = last_x st' - last_x st
        /\ rel_sum e.REL_Y tr = last_y st' - last_y st)
  /\ literal 1 1 = pow2_float 0.
Proof.
  split; [| split; [exact read_loop_unit_drag | exact literal_1]].
  intros cfg st st' ev tr Hrun.
  destruct (touch_start st ev) eqn:Hts.
  - rewrite loop_body_touch_start in Hrun by assumption.
    injection Hrun as _ <-. simpl. auto.
  - destruct (sync_while_touching st ev) eqn:Hsy; simpl.
    + rewrite loop_body_sync in Hrun by assumption.
      destruct (scaled_delta (x st) (last_x st) (sensitivity cfg));
        [| discriminate Hrun].
      destruct (scaled_delta (y st) (last_y st) (sensitivity cfg));
        [| discriminate Hrun].
      injection Hrun as _ <-. simpl. auto.
    + destruct (touch_end st ev) eqn:Hte.
      * apply touch_end_release in Hte as [Hr [held Ht]].
        rewrite (loop_body_touch_end cfg st ev held) in Hrun by assumption.
        injection Hrun as _ <-. simpl. auto.
      * rewrite loop_body_other in Hrun by assumption.
        injection Hrun as _ <-.
        destruct (collect_coordinates_touching st ev) as (_ & -> & ->).
        auto.
Qed.

Lemma last_xy_follow_every_sync_witness :
  (last_x {| touching := Some Left; x := 101; y := 50;
             last_x := 101; last_y := 50 |} = x slow_drag_state
   /\ last_y {| touching := Some Left; x := 101; y := 50;
                last_x := 101; last_y := 50 |} = y slow_drag_state)
  /\ (exists (tr : list Action) (st' : TouchState),
        read_loop slow_drag_state
          [ tick quiet syn_event; tick quiet (abs_event e.ABS_X 130);
            tick quiet (abs_event e.ABS_Y 40); tick quiet syn_event;
            tick quiet (abs_event e.ABS_X 125); tick quiet syn_event ]
        = (tr, Ok st')
        /\ rel_sum e.REL_X tr = last_x st' - last_x slow_drag_state
        /\ rel_sum e.REL_Y tr = last_y st' - last_y slow_drag_state).
Proof.
  destruct last_xy_follow_every_sync as (Hstep & Hsum & _).
  split.
  - pose proof (Hstep slow_drag_cfg slow_drag_state
                  {| touching := Some Left; x := 101; y := 50;
                     last_x := 101; last_y := 50 |}
                  syn_event [Syn]) as H.
    assert (Hrun : loop_body slow_drag_cfg slow_drag_state syn_event
                   = ([Syn], Ok {| touching := Some Left; x := 101; y := 50;
                                   last_x := 101; last_y := 50 |}))
      by (vm_compute; reflexivity).
    specialize (H Hrun).
    change (touch_start slow_drag_state syn_event
            || sync_while_touching slow_drag_state syn_event) with true in H.
    cbv iota in H. destruct H as (H1 & H2 & _). split; assumption.
  - apply (Hsum _ slow_drag_state Left).
    + reflexivity.
    + unfold in_range, fits_s32. simpl. lia.
    + assert (Hq : sensitivity quiet = pow2_float 0)
        by (vm_compute; reflexivity).
      repeat constructor; try exact Hq; simpl; lia.
Defined.

(** The claim as the spec words it fails: a sync frame while touching whose
    two deltas are zero still moves [last_x]. *)
Lemma last_x_moves_on_zero_deltas :
  ~ (forall (cfg : Live) (st st' : TouchState) (ev : InputEvent)
            (tr : list Action),
        sync_while_touching st ev = true ->
        scaled_delta (x st) (last_x st) (sensitivity cfg) = Ok 0 ->
        scaled_delta (y st) (last_y st) (sensitivity cfg) = Ok 0 ->
        loop_body cfg st ev = (tr, Ok st') ->
        last_x st' = last_x st /\ last_y st' = last_y st).
Proof.
  intros H.
  specialize (H slow_drag_cfg slow_drag_state
                {| touching := Some Left; x := 101; y := 50;
                   last_x := 101; last_y := 50 |}
                syn_event [Syn]).
  assert (H1 : sync_while_touching slow_drag_state syn_event = true)
    by reflexivity.
  assert (H2 : scaled_delta (x slow_drag_state) (last_x slow_drag_state)
                 (sensitivity slow_drag_cfg) = Ok 0)
    by (vm_compute; reflexivity).
  assert (H3 : scaled_delta (y slow_drag_state) (last_y slow_drag_state)
                 (sensitivity slow_drag_cfg) = Ok 0)
    by (vm_compute; reflexivity).
  assert (H4 : loop_body slow_drag_cfg slow_drag_state syn_event
               = ([Syn], Ok {| touching := Some Left; x := 101; y := 50;
                               last_x := 101; last_y := 50 |}))
    by (vm_compute; reflexivity).
  destruct (H H1 H2 H3 H4) as [Hx _]. simpl in Hx. discriminate.
Qed.

(** ** Sync frames while touching *)

(** C2: on a sync frame processed while touching, with [dx] and [dy] the two
    deltas that [int()] returns, the loop writes a relative-X move exactly
    when [dx <> 0], a relative-Y move exactly when [dy <> 0], and then calls
    [syn()] once, whatever the deltas; a sync frame with zero deltas, and so
    one with no movement under a finite sensitivity, gives one [syn()] and
    no axis write. *)
Theorem sync_frame_output :
  (forall (cfg : Live) (st : TouchState) (ev : InputEvent) (dx dy : Z),
      type ev = e.EV_SYN -> is_touching st = true ->
      scaled_delta (x st) (last_x st) (sensitivity cfg) = Ok dx ->
      scaled_delta (y st) (last_y st) (sensitivity cfg) = Ok dy ->
      let tr := trace (loop_body cfg st ev) in
      tr = delta_writes dx dy ++ [Syn]
      /\ (forall v, In (Write e.EV_REL e.REL_X v) tr <-> v = dx /\ dx <> 0)
      /\ (forall v, In (Write e.EV_REL e.REL_Y v) tr <-> v = dy /\ dy <> 0)
      /\ syn_calls tr = 1%nat
      /\ (dx = 0 -> dy = 0 -> tr = [Syn] /\ axis_writes tr = []))
  /\
  (forall (cfg : Live) (st : TouchState) (ev : InputEvent),
      type ev = e.EV_SYN -> is_touching st = true ->
      is_finite (sensitivity cfg) = true ->
      x st = last_x st -> y st = last_y st ->
      let tr := trace (loop_body cfg st ev) in
      tr = [Syn] /\ axis_writes tr = [] /\ syn_calls tr = 1%nat).
Proof.
  split.
  - intros cfg st ev dx dy Hty Ht Hx Hy tr.
    assert (Htr : tr = delta_writes dx dy ++ [Syn]).
    { unfold tr. rewrite loop_body_sync.
      - rewrite Hx, Hy. reflexivity.
      - unfold sync_while_touching. rewrite Hty, Ht. reflexivity. }
    rewrite Htr. split; [reflexivity |].
    split; [intros v; apply In_delta_writes_x |].
    split; [intros v; apply In_delta_writes_y |].
    split; [apply syn_calls_delta_writes |].
    intros -> ->. split; reflexivity.
  - intros cfg st ev Hty Ht Hf Hx Hy tr.
    assert (Htr : tr = [Syn]).
    { unfold tr. rewrite loop_body_sync.
      - rewrite Hx, Hy. rewrite !scaled_delta_same by assumption. reflexivity.
      - unfold sync_while_touching. rewrite Hty, Ht. reflexivity. }
    rewrite Htr. repeat split.
Qed.

Lemma sync_frame_output_witness :
  (trace (loop_body
            {| sensitivity := literal 2 1; enable_haptics := true;
               show_debug_borders := false |}
            {| touching := Some Left; x := 110; y := 100;
               last_x := 100; last_y := 100 |}
            syn_event) = [Write e.EV_REL e.REL_X 20; Syn])
  /\
  (trace (loop_body
            {| sensitivity := literal 3 2; enable_haptics := true;
               show_debug_borders := false |}
            {| touching := Some Right; x := 1500; y := 40;
               last_x := 1500; last_y := 40 |}
            syn_event) = [Syn]).
Proof.
  split.
  - pose proof (proj1 sync_frame_output
             {| sensitivity := literal 2 1; enable_haptics := true;
                show_debug_borders := false |}
             {| touching := Some Left; x := 110; y := 100;
                last_x := 100; last_y := 100 |}
             syn_event 20 0) as H.
    assert (H1 : type syn_event = e.EV_SYN) by reflexivity.
    assert (H2 : is_touching {| touching := Some Left; x := 110; y := 100;
                                last_x := 100; last_y := 100 |} = true)
      by reflexivity.
    specialize (H H1 H2).
    simpl x in H; simpl y in H; simpl last_x in H; simpl last_y in H;
      simpl sensitivity in H.
    assert (H3 : scaled_delta 110 100 (literal 2 1) = Ok 20)
      by (vm_compute; reflexivity).
    assert (H4 : scaled_delta 100 100 (literal 2 1) = Ok 0)
      by (vm_compute; reflexivity).
    exact (proj1 (H H3 H4)).
  - pose proof (proj2 sync_frame_output
             {| sensitivity := literal 3 2; enable_haptics := true;
                show_debug_borders := false |}
             {| touching := Some Right; x := 1500; y := 40;
                last_x := 1500; last_y := 40 |}
             syn_event) as H.
    assert (H1 : type syn_event = e.EV_SYN) by reflexivity.
    assert (H2 : is_touching {| touching := Some Right; x := 1500; y := 40;
                                last_x := 1500; last_y := 40 |} = true)
      by reflexivity.
    assert (H3 : is_finite (literal 3 2) = true) by (vm_compute; reflexivity).
    exact (proj1 (H H1 H2 H3 eq_refl eq_refl)).
Defined.

(** C3: on a sync frame while touching, each delta is the binary64 product
    of the coordinate difference and the sensitivity, cut to an integer
    toward zero; a sensitivity that is a power of two, such as 2.0, scales
    the differences exactly; with sensitivity 2.0, a touch-start at
    (100,100), an X update to 110 and a sync give one relative-X write of
    +20, no relative-Y write and one [syn()]. *)
Theorem delta_truncates_product :
  (forall (cfg : Live) (st : TouchState) (ev : InputEvent) (px py : float),
      type ev = e.EV_SYN -> is_touching st = true ->
      mul_int_float (x st - last_x st) (sensitivity cfg) = Ok px ->
      mul_int_float (y st - last_y st) (sensitivity cfg) = Ok py ->
      is_finite px = true -> is_finite py = true ->
      let dx := Z.quot (float_num px) (float_den px) in
      let dy := Z.quot (float_num py) (float_den py) in
      trace (loop_body cfg st ev) = delta_writes dx dy ++ [Syn]
      /\ (Z.abs dx * float_den px <= Z.abs (float_num px)
             < (Z.abs dx + 1) * float_den px
          /\ 0 <= dx * float_num px)
      /\ (Z.abs dy * float_den py <= Z.abs (float_num py)
             < (Z.abs dy + 1) * float_den py
          /\ 0 <= dy * float_num py))
  /\
  (forall (cfg : Live) (st : TouchState) (ev : InputEvent) (j : Z),
      type ev = e.EV_SYN -> is_touching st = true ->
      sensitivity cfg = pow2_float j -> 0 <= j <= 900 ->
      - 2 ^ 53 < x st - last_x st < 2 ^ 53 ->
      - 2 ^ 53 < y st - last_y st < 2 ^ 53 ->
      trace (loop_body cfg st ev)
      = delta_writes ((x st - last_x st) * 2 ^ j)
                     ((y st - last_y st) * 2 ^ j) ++ [Syn])
  /\ literal 2 1 = pow2_float 1
  /\
  (forall haptics borders : bool,
      let cfg := {| sensitivity := literal 2 1; enable_haptics := haptics;
                    show_debug_borders := borders |} in
      let tick ev := {| stop_is_set := false; live := cfg; event := ev |} in
      let tr := trace (read_loop initial_state
        [ tick {| type := e.EV_ABS; code := e.ABS_X; value := 100 |};
          tick {| type := e.EV_ABS; code := e.ABS_Y; value := 100 |};
          tick {| type := e.EV_KEY; code := e.BTN_TOUCH; value := 1 |};
          tick {| type := e.EV_ABS; code := e.ABS_X; value := 110 |};
          tick syn_event ]) in
      device_output tr = [Write e.EV_REL e.REL_X 20; Syn]
      /\ axis_writes tr = [Write e.EV_REL e.REL_X 20]
      /\ syn_calls tr = 1%nat).
Proof.
  split; [| split; [| split]].
  - intros cfg st ev px py Hty Ht Hpx Hpy Hfx Hfy dx dy.
    assert (Hdx : scaled_delta (x st) (last_x st) (sensitivity cfg) = Ok dx).
    { unfold scaled_delta. rewrite Hpx.
      destruct (int_of_float px) as [d |] eqn:Hd.
      - apply int_of_float_quot in Hd. subst d. reflexivity.
      - destruct px; discriminate. }
    assert (Hdy : scaled_delta (y st) (last_y st) (sensitivity cfg) = Ok dy).
    { unfold scaled_delta. rewrite Hpy.
      destruct (int_of_float py) as [d |] eqn:Hd.
      - apply int_of_float_quot in Hd. subst d. reflexivity.
      - destruct py; discriminate. }
    split.
    + rewrite loop_body_sync.
      * rewrite Hdx, Hdy. reflexivity.
      * unfold sync_while_touching. rewrite Hty, Ht. reflexivity.
    + split; apply quot_truncates; apply float_den_pos.
  - intros cfg st ev j Hty Ht Hs Hj Hx Hy.
    rewrite loop_body_sync.
    + rewrite Hs, !scaled_delta_pow2 by assumption. reflexivity.
    + unfold sync_while_touching. rewrite Hty, Ht. reflexivity.
  - exact literal_2.
  - intros [|] [|]; vm_compute; repeat split; reflexivity.
Qed.

Lemma delta_truncates_product_witness :
  (trace (loop_body
            {| sensitivity := literal 1 2; enable_haptics := false;
               show_debug_borders := false |}
            {| touching := Some Left; x := 100; y := 57;
               last_x := 107; last_y := 50 |}
            syn_event)
   = [Write e.EV_REL e.REL_X (-3); Write e.EV_REL e.REL_Y 3; Syn])
  /\
  (trace (loop_body
            {| sensitivity := pow2_float 2; enable_haptics := false;
               show_debug_borders := false |}
            {| touching := Some Left; x := 100; y := 57;
               last_x := 107; last_y := 50 |}
            syn_event)
   = [Write e.EV_REL e.REL_X (-28); Write e.EV_REL e.REL_Y 28; Syn]).
Proof.
  destruct delta_truncates_product as (Htrunc & Hpow & _).
  split.
  - pose proof (Htrunc
           {| sensitivity := literal 1 2; enable_haptics := false;
              show_debug_borders := false |}
           {| touching := Some Left; x := 100; y := 57;
              last_x := 107; last_y := 50 |}
           syn_event
           (S754_finite true 7881299347898368 (-51))
           (S754_finite false 7881299347898368 (-51))) as H.
    assert (H1 : type syn_event = e.EV_SYN) by reflexivity.
    assert (H2 : is_touching {| touching := Some Left; x := 100; y := 57;
                                last_x := 107; last_y := 50 |} = true)
      by reflexivity.
    specialize (H H1 H2).
    simpl x in H; simpl y in H; simpl last_x in H; simpl last_y in H;
      simpl sensitivity in H.
    assert (H3 : mul_int_float (100 - 107) (literal 1 2)
                 = Ok (S754_finite true 7881299347898368 (-51)))
      by (vm_compute; reflexivity).
    assert (H4 : mul_int_float (57 - 50) (literal 1 2)
                 = Ok (S754_finite false 7881299347898368 (-51)))
      by (vm_compute; reflexivity).
    specialize (H H3 H4 eq_refl eq_refl).
    destruct H as [H _].
    replace (delta_writes _ _ ++ [Syn])
      with [Write e.EV_REL e.REL_X (-3); Write e.EV_REL e.REL_Y 3; Syn] in H
      by (vm_compute; reflexivity).
    exact H.
  - pose proof (Hpow
           {| sensitivity := pow2_float 2; enable_haptics := false;
              show_debug_borders := false |}
           {| touching := Some Left; x := 100; y := 57;
              last_x := 107; last_y := 50 |}
           syn_event 2 eq_refl eq_refl eq_refl) as H.
    simpl x in H; simpl y in H; simpl last_x in H; simpl last_y in H.
    assert (Hj : 0 <= 2 <= 900) by lia.
    assert (Hx : - 2 ^ 53 < 100 - 107 < 2 ^ 53) by lia.
    assert (Hy : - 2 ^ 53 < 57 - 50 < 2 ^ 53) by lia.
    specialize (H Hj Hx Hy).
    replace (delta_writes _ _ ++ [Syn])
      with [Write e.EV_REL e.REL_X (-28); Write e.EV_REL e.REL_Y 28; Syn] in H
      by (vm_compute; reflexivity).
    exact H.
Defined.

(** ** Region of a touch *)

(** C4: for every integer x and every screen width that binary64 holds
    exactly, the side is Left if x < screen_width / 2 and Right otherwise;
    with the width 1920 of the source, x = 100 is Left, x = 1800 is Right and
    the boundary x = 960 is Right; a touch-start stores the side of the X
    coordinate of that moment, and no later event but the release changes
    it. *)
Theorem resolve_side_at_touch_start :
  (forall cx w : Z, - 2 ^ 53 < w < 2 ^ 53 ->
     ((inject_Z cx < inject_Z w / 2)%Q -> resolve cx w = Left)
     /\ (~ (inject_Z cx < inject_Z w / 2)%Q -> resolve cx w = Right))
  /\ resolve 100 1920 = Left
  /\ resolve 1800 1920 = Right
  /\ resolve 960 1920 = Right
  /\ (forall (cfg : Live) (st : TouchState) (ev : InputEvent),
        touch_start st ev = true ->
        exists st', outcome (loop_body cfg st ev) = Ok st'
                    /\ touching st' = Some (resolve (x st) SCREEN_WIDTH))
  /\ (forall (cfg : Live) (st st' : TouchState) (ev : InputEvent)
             (held : Side) (tr : list Action),
        touching st = Some held -> is_release ev = false ->
        loop_body cfg st ev = (tr, Ok st') -> touching st' = Some held).
Proof.
  split; [| split; [| split; [| split; [| split]]]].
  - intros cx w Hw. rewrite Qlt_half, resolve_exact by assumption.
    destruct (Z.ltb_spec (2 * cx) w); split; intros H';
      try reflexivity; exfalso; lia.
  - rewrite resolve_exact by lia. reflexivity.
  - rewrite resolve_exact by lia. reflexivity.
  - rewrite resolve_exact by lia. reflexivity.
  - intros cfg st ev Hts. rewrite loop_body_touch_start by assumption.
    eexists. split; reflexivity.
  - apply loop_body_keeps_side.
Qed.

Lemma resolve_side_at_touch_start_witness :
  resolve 959 1920 = Left
  /\ resolve 961 1921 = Right
  /\ (exists st',
        outcome (loop_body quiet
                   {| touching := None; x := 100; y := 7;
                      last_x := 0; last_y := 0 |} press_event) = Ok st'
        /\ touching st' = Some (resolve 100 SCREEN_WIDTH))
  /\ touching {| touching := Some Left; x := 1800; y := 7;
                 last_x := 100; last_y := 7 |} = Some Left.
Proof.
  destruct resolve_side_at_touch_start as (Hres & _ & _ & _ & Hstart & Hkeep).
  split; [| split; [| split]].
  - apply (Hres 959 1920); [lia | apply Qlt_half; lia].
  - apply (Hres 961 1921); [lia | rewrite Qlt_half; lia].
  - apply (Hstart quiet {| touching := None; x := 100; y := 7;
                           last_x := 0; last_y := 0 |} press_event).
    reflexivity.
  - apply (Hkeep quiet {| touching := Some Left; x := 100; y := 7;
                          last_x := 100; last_y := 7 |}
                 _ (abs_event e.ABS_X 1800) Left []).
    + reflexivity.
    + reflexivity.
    + reflexivity.
Defined.

(** ** Before a touch *)

(** C5: over any events with no press of the touch button (axis updates and
    sync frames among them), from a state with no touch: [touching] stays
    [None] and nothing is written, to the virtual device or elsewhere; the
    axis updates still reach [x]/[y], and a touch-start that follows takes
    its side and its baseline from them. *)
Theorem idle_until_touch_start (ticks : list Tick) (st : TouchState) :
  touching st = None ->
  Forall (fun t => is_press (event t) = false) ticks ->
  exists st',
    read_loop st ticks = ([], Ok st')
    /\ touching st' = None
    /\ (Forall (fun t => stop_is_set t = false) ticks ->
        x st' = latest e.ABS_X (x st) (map event ticks)
        /\ y st' = latest e.ABS_Y (y st) (map event ticks))
    /\ (forall (cfg : Live) (ev : InputEvent), is_press ev = true ->
        outcome (loop_body cfg st' ev)
        = Ok {| touching := Some (resolve (x st') SCREEN_WIDTH);
                x := x st'; y := y st';
                last_x := x st'; last_y := y st' |}).
Proof.
  intros Ht Hall. revert st Ht.
  induction Hall as [| t rest Hp _ IH]; intros st Ht.
  - exists st. split; [reflexivity |]. split; [assumption |].
    split; [intros _; split; reflexivity |].
    intros cfg ev Hev. rewrite loop_body_touch_start; [reflexivity |].
    unfold touch_start, is_touching. rewrite Hev, Ht. reflexivity.
  - destruct (stop_is_set t) eqn:Hstop.
    + exists st. rewrite read_loop_stop by assumption.
      split; [reflexivity |]. split; [assumption |].
      split.
      * intros Hno. inversion Hno; subst. congruence.
      * intros cfg ev Hev. rewrite loop_body_touch_start; [reflexivity |].
        unfold touch_start, is_touching. rewrite Hev, Ht. reflexivity.
    + destruct (collect_coordinates_touching st (event t)) as (Hct & _ & _).
      destruct (IH (collect_coordinates st (event t)))
        as (st' & Hrun & Hnone & Hxy & Hnext); [congruence |].
      exists st'. rewrite read_loop_go by assumption.
      rewrite loop_body_idle by assumption.
      rewrite bind_ok, Hrun. split; [reflexivity |].
      split; [assumption |]. split; [| assumption].
      intros Hno. inversion Hno; subst.
      destruct (collect_coordinates_xy st (event t)) as [Hx Hy].
      destruct Hxy as [Hx' Hy']; [assumption |].
      unfold latest in *. simpl. rewrite <- Hx, <- Hy. auto.
Qed.

Lemma idle_until_touch_start_witness :
  exists st',
    read_loop initial_state
      [ tick quiet (abs_event e.ABS_X 1500); tick quiet syn_event;
        tick quiet (abs_event e.ABS_Y 300); tick quiet release_event;
        tick quiet (abs_event e.ABS_X 1700); tick quiet syn_event ]
    = ([], Ok st')
    /\ touching st' = None
    /\ x st' = 1700 /\ y st' = 300
    /\ outcome (loop_body quiet st' press_event)
       = Ok {| touching := Some Right; x := 1700; y := 300;
               last_x := 1700; last_y := 300 |}.
Proof.
  destruct (idle_until_touch_start
      [ tick quiet (abs_event e.ABS_X 1500); tick quiet syn_event;
        tick quiet (abs_event e.ABS_Y 300); tick quiet release_event;
        tick quiet (abs_event e.ABS_X 1700); tick quiet syn_event ]
      initial_state) as (st' & Hrun & Hnone & Hxy & Hnext).
  - reflexivity.
  - repeat constructor.
  - exists st'. split; [exact Hrun |]. split; [exact Hnone |].
    destruct Hxy as [Hx Hy]; [repeat constructor |].
    split; [exact Hx |]. split; [exact Hy |].
    rewrite (Hnext quiet press_event eq_refl), Hx, Hy.
    change (latest e.ABS_X (x initial_state) _) with 1700.
    change (latest e.ABS_Y (y initial_state) _) with 300.
    rewrite resolve_screen. reflexivity.
Defined.

(** ** Debug borders *)

(** C6: with [show_debug_borders] true, a touch-end injects exactly one
    hide-overlay command, for the id of the side held since the touch-start
    (whatever [x] has become); a touch-start injects the show command of
    that id; a release of the touch button with no touch active injects
    nothing; so, over a whole run, each hide follows the show of the same
    id. *)
Theorem hide_pairs_with_show :
  (forall (cfg : Live) (st : TouchState) (ev : InputEvent) (held : Side),
      show_debug_borders cfg = true ->
      is_release ev = true -> touching st = Some held ->
      overlay_log (trace (loop_body cfg st ev)) = [Hide (overlay_id held)]
      /\ exists st', outcome (loop_body cfg st ev) = Ok st'
                     /\ touching st' = None)
  /\ (forall (cfg : Live) (st : TouchState) (ev : InputEvent),
      show_debug_borders cfg = true -> touch_start st ev = true ->
      exists side st',
        overlay_log (trace (loop_body cfg st ev)) = [Show (overlay_id side)]
        /\ outcome (loop_body cfg st ev) = Ok st'
        /\ touching st' = Some side)
  /\ (forall (cfg : Live) (st : TouchState) (ev : InputEvent),
      is_release ev = true -> touching st = None ->
      loop_body cfg st ev = ([], Ok st))
  /\ (forall (ticks : list Tick) (st : TouchState),
      Forall (fun t => show_debug_borders (live t) = true) ticks ->
      paired (shown_id st) (overlay_log (trace (read_loop st ticks))) = true).
Proof.
  split; [| split; [| split]].
  - intros cfg st ev held Hb Hr Ht.
    rewrite (loop_body_touch_end cfg st ev held) by assumption.
    cbn [trace outcome fst snd].
    rewrite overlay_log_border_removed by assumption.
    split; [reflexivity |]. eexists. split; reflexivity.
  - intros cfg st ev Hb Hts.
    rewrite loop_body_touch_start by assumption.
    cbn [trace outcome fst snd].
    rewrite overlay_log_app, overlay_log_haptic_pulse,
      overlay_log_border_shown by assumption.
    exists (resolve (x st) SCREEN_WIDTH). eexists.
    split; [reflexivity |]. split; reflexivity.
  - intros cfg st ev Hr Ht.
    rewrite loop_body_other.
    + rewrite collect_coordinates_not_abs; [reflexivity |].
      unfold is_release, is_touch_button in Hr. bool_hyps.
      match goal with H : type ev = _ |- _ => rewrite H end. discriminate.
    + unfold touch_start, is_press, is_release in *.
      apply andb_true_iff in Hr as [Hb Hv]. rewrite Hb. simpl.
      apply Z.eqb_eq in Hv. rewrite Hv. reflexivity.
    + unfold touch_end, is_touching. rewrite Ht. apply andb_false_r.
    + unfold sync_while_touching, is_touching. rewrite Ht.
      apply andb_false_r.
  - apply read_loop_paired.
Qed.

Lemma hide_pairs_with_show_witness :
  overlay_log (trace (loop_body borders_on
                        {| touching := Some Left; x := 1800; y := 20;
                           last_x := 1800; last_y := 20 |} release_event))
  = [Hide "sps_debug_left"]
  /\ (exists side st',
        overlay_log (trace (loop_body borders_on
                        {| touching := None; x := 100; y := 20;
                           last_x := 0; last_y := 0 |} press_event))
        = [Show (overlay_id side)]
        /\ outcome (loop_body borders_on
                        {| touching := None; x := 100; y := 20;
                           last_x := 0; last_y := 0 |} press_event) = Ok st'
        /\ touching st' = Some side)
  /\ loop_body borders_on initial_state release_event = ([], Ok initial_state)
  /\ paired None
       (overlay_log (trace (read_loop initial_state
          [ tick borders_on (abs_event e.ABS_X 100);
            tick borders_on press_event;
            tick borders_on (abs_event e.ABS_X 1800);
            tick borders_on syn_event;
            tick borders_on release_event;
            tick borders_on release_event ]))) = true.
Proof.
  destruct hide_pairs_with_show as (Hend & Hstart & Hidle & Hrun).
  split; [| split; [| split]].
  - apply (Hend borders_on {| touching := Some Left; x := 1800; y := 20;
                              last_x := 1800; last_y := 20 |}
                release_event Left); reflexivity.
  - apply (Hstart borders_on {| touching := None; x := 100; y := 20;
                                last_x := 0; last_y := 0 |} press_event);
      reflexivity.
  - apply (Hidle borders_on initial_state release_event); reflexivity.
  - apply (Hrun _ initial_state). repeat constructor.
Defined.

(** C7 (as amended): on a touch-start with debug borders enabled, exactly
    one overlay command is injected; it shows the overlay of id
    [sps_debug_<side>] for the resolved side ([left] or [right]); its
    rectangle is the touched half of the screen: x = 0 for the left side
    and 960 for the right, y = 0, width 960, height 1080, which holds
    exactly the X coordinates of the screen that resolve to that side; its
    color is the red (255, 0, 0, 100) and its border size 5. *)
Theorem debug_border_command (cfg : Live) (st : TouchState)
    (ev : InputEvent) :
  show_debug_borders cfg = true -> touch_start st ev = true ->
  let side := resolve (x st) SCREEN_WIDTH in
  let x0 := match side with Left => 0 | Right => 960 end in
  exists d : pydict,
    filter is_overlay (trace (loop_body cfg st ev)) = [Inject d]
    /\ get "type" d = Some (PStr "overlay")
    /\ get "remove" d = None
    /\ get "id" d = Some (PStr (String.append "sps_debug_" (side_str side)))
    /\ get "id" d
       = Some (PStr match side with
                    | Left => "sps_debug_left"
                    | Right => "sps_debug_right"
                    end)
    /\ get_int "x" d = Some x0
    /\ get_int "y" d = Some 0
    /\ get_int "width" d = Some 960
    /\ get_int "height" d = Some 1080
    /\ (forall cx : Z, 0 <= cx < 1920 ->
          (x0 <= cx < x0 + 960 <-> resolve cx SCREEN_WIDTH = side))
    /\ get "color" d = Some (PTuple [PInt 255; PInt 0; PInt 0; PInt 100])
    /\ get "border_size" d = Some (PInt 5).
Proof.
  intros Hb Hts side.
  assert (Hrun : trace (loop_body cfg st ev)
                 = haptic_pulse cfg ++ border_shown cfg side)
    by (rewrite loop_body_touch_start by assumption; reflexivity).
  clearbody side. intros x0.
  destruct (border_rect_fields side)
    as (Hty & Hid & Hx & Hy & Hw & Hh & Hc & Hs & Hrm).
  exists (border_rect side).
  split.
  { rewrite Hrun. unfold haptic_pulse, border_shown.
    rewrite Hb. destruct (enable_haptics cfg), side; vm_compute; reflexivity. }
  split; [exact Hty |]. split; [exact Hrm |]. split; [exact Hid |].
  split; [rewrite Hid; destruct side; reflexivity |].
  split; [exact Hx |]. split; [exact Hy |]. split; [exact Hw |].
  split; [exact Hh |].
  split.
  { intros cx Hcx. apply half_covers. exact Hcx. }
  split; [exact Hc | exact Hs].
Qed.

Lemma debug_border_command_witness :
  exists (d : pydict),
    filter is_overlay (trace (loop_body borders_on idle_at_100 press_event))
    = [Inject d]
    /\ get "id" d = Some (PStr "sps_debug_left")
    /\ get_int "x" d = Some 0
    /\ get_int "width" d = Some 960.
Proof.
  destruct (debug_border_command borders_on idle_at_100 press_event
              eq_refl eq_refl)
    as (d & Htr & _).
  exists d. split; [exact Htr |].
  assert (Hd : d = border_rect Left).
  { assert (Hl : filter is_overlay
                   (trace (loop_body borders_on idle_at_100 press_event))
                 = [Inject (border_rect Left)]) by (vm_compute; reflexivity).
    rewrite Hl in Htr. injection Htr as <-. reflexivity. }
  subst d. repeat split; vm_compute; reflexivity.
Defined.

(** The id that the spec words, [debug-<side>], is not the id injected. *)
Lemma debug_border_id_is_not_debug_side :
  ~ (forall (cfg : Live) (st : TouchState) (ev : InputEvent) (d : pydict),
        show_debug_borders cfg = true -> touch_start st ev = true ->
        In (Inject d) (trace (loop_body cfg st ev)) ->
        get "type" d = Some (PStr "overlay") ->
        get "id" d
        = Some (PStr (String.append "debug-"
                        (side_str (resolve (x st) SCREEN_WIDTH))))).
Proof.
  intros H.
  specialize (H borders_on idle_at_100 press_event (border_rect Left)
                eq_refl eq_refl).
  assert (Hin : In (Inject (border_rect Left))
                  (trace (loop_body borders_on idle_at_100 press_event))).
  { vm_compute. right. right. right. left. reflexivity. }
  specialize (H Hin eq_refl).
  vm_compute in H. discriminate H.
Qed.

(** ** Cancellation, exit and the close of the virtual device *)

(** C8: when the stop flag is set as an event arrives, the loop leaves
    before doing anything with that event or with those behind it; the
    code that runs the loop (lines 110-169), on leaving it by the flag or
    by the end of the stream, closes the virtual device once, as its last
    call (and it does leave the loop so whenever the sensitivities are
    powers of two); it never closes the device twice, and a flag set as
    the stream ends changes nothing to that; nor does any run of the whole
    thread function close the device twice. *)
Theorem stop_flag_then_single_close :
  (forall (st : TouchState) (t : Tick) (rest : list Tick),
      stop_is_set t = true -> read_loop st (t :: rest) = ([], Ok st))
  /\ (forall (pre : list Tick) (t : Tick) (rest : list Tick),
      stop_is_set t = true ->
      loop_and_close (pre ++ t :: rest) = loop_and_close pre)
  /\ (forall (ticks : list Tick) (st' : TouchState),
      outcome (read_loop initial_state ticks) = Ok st' ->
      exists tr, trace (loop_and_close ticks) = tr ++ [Close]
                 /\ close_calls tr = 0%nat
                 /\ close_calls (trace (loop_and_close ticks)) = 1%nat)
  /\ (forall ticks : list Tick,
      Forall plain_tick ticks ->
      close_calls (trace (loop_and_close ticks)) = 1%nat)
  /\ (forall ticks : list Tick,
      (close_calls (trace (loop_and_close ticks)) <= 1)%nat)
  /\ (forall (env : Startup) (ticks : list Tick),
      (close_calls (trace (started_thread env ticks)) <= 1)%nat
      /\ (close_calls (trace (_input_thread_loop env ticks)) <= 1)%nat).
Proof.
  assert (Honce : forall (ticks : list Tick) (st' : TouchState),
      outcome (read_loop initial_state ticks) = Ok st' ->
      exists tr, trace (loop_and_close ticks) = tr ++ [Close]
                 /\ close_calls tr = 0%nat
                 /\ close_calls (trace (loop_and_close ticks)) = 1%nat).
  { intros ticks st' Hok. rewrite loop_and_close_run.
    pose proof (read_loop_no_close ticks initial_state) as Hnc.
    destruct (read_loop initial_state ticks) as [tr [st | ex]];
      [| discriminate Hok].
    cbn [trace fst] in *. exists tr.
    split; [reflexivity |]. split; [exact Hnc |].
    rewrite close_calls_app, Hnc. reflexivity. }
  assert (Hmost : forall ticks : list Tick,
      (close_calls (trace (loop_and_close ticks)) <= 1)%nat).
  { intros ticks. rewrite loop_and_close_run.
    pose proof (read_loop_no_close ticks initial_state) as Hnc.
    destruct (read_loop initial_state ticks) as [tr [st | ex]];
      cbn [trace fst] in *; [rewrite close_calls_app |]; rewrite Hnc;
      unfold close_calls; simpl; lia. }
  split; [| split; [| split; [| split; [| split]]]].
  - intros st t rest Hstop. apply read_loop_stop. assumption.
  - intros pre t rest Hstop. unfold loop_and_close.
    rewrite read_loop_cut by assumption. reflexivity.
  - exact Honce.
  - intros ticks Hall.
    destruct (read_loop_returns ticks initial_state) as [st' Hok].
    + unfold in_range, fits_s32. simpl. lia.
    + assumption.
    + destruct (Honce ticks st' Hok) as (tr & _ & _ & H1). exact H1.
  - exact Hmost.
  - intros env ticks. split.
    + unfold started_thread.
      destruct (uinput_ok env); [| cbv; lia].
      destruct (input_device_ok env); [| cbv; lia].
      specialize (Hmost ticks).
      destruct (loop_and_close ticks) as [tr r]. cbn [trace fst] in Hmost.
      destruct r; exact Hmost.
    + rewrite input_thread_loop_logs. cbv. lia.
Qed.

Lemma stop_flag_then_single_close_witness :
  read_loop idle_at_100 [stop_tick press_event; tick quiet syn_event]
  = ([], Ok idle_at_100)
  /\ loop_and_close
       ([tick quiet (abs_event e.ABS_X 100); tick quiet press_event]
        ++ stop_tick syn_event :: [])
     = loop_and_close
         [tick quiet (abs_event e.ABS_X 100); tick quiet press_event]
  /\ close_calls (trace (loop_and_close
         [tick quiet (abs_event e.ABS_X 100); tick quiet press_event;
          stop_tick syn_event])) = 1%nat
  /\ close_calls (trace (loop_and_close
         [tick quiet press_event; tick quiet (abs_event e.ABS_X 40);
          tick quiet syn_event; tick quiet release_event])) = 1%nat.
Proof.
  destruct stop_flag_then_single_close
    as (Hstop & Hcut & Honce & Hplain & _ & _).
  split; [| split; [| split]].
  - apply (Hstop idle_at_100 (stop_tick press_event)). reflexivity.
  - apply Hcut. reflexivity.
  - destruct (Honce
         [tick quiet (abs_event e.ABS_X 100); tick quiet press_event;
          stop_tick syn_event]
         {| touching := Some Left; x := 100; y := 0;
            last_x := 100; last_y := 0 |})
      as (tr & _ & _ & H1).
    + vm_compute. reflexivity.
    + exact H1.
  - apply Hplain.
    assert (Hq : sensitivity quiet = pow2_float 0)
      by (vm_compute; reflexivity).
    repeat constructor;
      first [ exists 0; split; [lia | exact Hq]
            | unfold fits_s32; simpl; lia ].
Defined.

(** ** Updates of the configuration *)

(** C9: an [update] whose [enable] and device path equal the stored ones
    stops no thread and starts none, and only refreshes the attributes read
    live; applying the same enabling configuration again and again starts
    one thread in all; and whatever the configurations applied, two loop
    handles never exist at a time. *)
Theorem update_restarts_only_on_change :
  (forall (p : Plugin) (conf : Config),
      enabled p = new_enabled conf ->
      touch_device_path p = Some (new_device_path conf) ->
      update p conf =
        ({| enabled := enabled p;
            touch_device_path := touch_device_path p;
            attrs := new_attrs conf;
            input_thread := input_thread p;
            threads_made := threads_made p |}, []))
  /\ (forall (conf : Config) (n : nat),
      new_enabled conf = true ->
      snd (run_updates initial_plugin (repeat conf (S n)))
      = [Start 0 (Some (new_device_path conf))]
      /\ input_thread (fst (run_updates initial_plugin (repeat conf (S n))))
         = Some 0%nat)
  /\ (forall confs : list Config,
      never_two [] (snd (run_updates initial_plugin confs)) = true).
Proof.
  split; [| split].
  - apply update_same.
  - intros conf n Hen. simpl.
    unfold update. rewrite Hen. cbn [initial_plugin enabled touch_device_path
      input_thread threads_made Bool.eqb negb orb app].
    set (p1 := {| enabled := true;
                  touch_device_path := Some (new_device_path conf);
                  attrs := new_attrs conf;
                  input_thread := Some 0%nat;
                  threads_made := 1 |}).
    destruct (run_updates_repeat_same p1 conf n) as [Hops Hthread].
    + rewrite Hen. reflexivity.
    + reflexivity.
    + destruct (run_updates p1 (repeat conf n)) as [p2 ops2].
      cbn [fst snd] in *. rewrite Hops. split; [reflexivity | exact Hthread].
  - intros confs. apply run_updates_never_two. left. reflexivity.
Qed.

Lemma update_restarts_only_on_change_witness :
  snd (update (fst (update initial_plugin enabling_conf)) enabling_conf) = []
  /\ snd (run_updates initial_plugin (repeat enabling_conf 4))
     = [Start 0 (Some "/dev/input/event7")].
Proof.
  destruct update_restarts_only_on_change as (Hsame & Hrepeat & _).
  split.
  - rewrite (Hsame (fst (update initial_plugin enabling_conf)) enabling_conf);
      reflexivity.
  - exact (proj1 (Hrepeat enabling_conf 3%nat eq_refl)).
Defined.

(** ** Start-up failure *)

(** C10: in the code from the creation of the virtual device on (lines
    97-169), when the device is created and the open of the source device
    then raises, the function logs and returns at once: no event is read
    and the device just created is not closed; that code closes the device
    only if both constructors returned, that is, if it reached the loop.
    The exception that the source raises before that, while it builds the
    capabilities, is caught by the same [except]: the whole function logs
    and returns, and closes nothing. *)
Theorem startup_failure_leaves_device_open :
  (forall (env : Startup) (ticks : list Tick),
      uinput_ok env = true -> input_device_ok env = false ->
      started_thread env ticks = ([UInputCreate; LogError], Ok tt)
      /\ close_calls (trace (started_thread env ticks)) = 0%nat)
  /\ (forall (env : Startup) (ticks : list Tick),
      In Close (trace (started_thread env ticks)) ->
      uinput_ok env = true /\ input_device_ok env = true
      /\ In OpenSource (trace (started_thread env ticks)))
  /\ (forall (env : Startup) (ticks : list Tick),
      _input_thread_loop env ticks = ([LogError], Ok tt)
      /\ close_calls (trace (_input_thread_loop env ticks)) = 0%nat).
Proof.
  split; [| split].
  - intros env ticks Hu Hi. unfold started_thread.
    rewrite Hu, Hi. split; reflexivity.
  - intros env ticks Hin.
    destruct (uinput_ok env) eqn:Hu.
    + destruct (input_device_ok env) eqn:Hi.
      * split; [reflexivity |]. split; [reflexivity |].
        rewrite started_thread_both_ok by assumption.
        destruct (read_loop initial_state ticks) as [tr [st | ex]];
          right; left; reflexivity.
      * exfalso. unfold started_thread in Hin. rewrite Hu, Hi in Hin.
        simpl in Hin. destruct Hin as [H | [H | []]]; discriminate H.
    + exfalso. unfold started_thread in Hin. rewrite Hu in Hin.
      simpl in Hin. destruct Hin as [H | []]; discriminate H.
  - intros env ticks. rewrite input_thread_loop_logs. split; reflexivity.
Qed.

Lemma startup_failure_leaves_device_open_witness :
  started_thread source_fails [tick quiet press_event; tick quiet syn_event]
  = ([UInputCreate; LogError], Ok tt)
  /\ (uinput_ok both_ok = true /\ input_device_ok both_ok = true).
Proof.
  destruct startup_failure_leaves_device_open as (Hfail & Honly & _).
  split.
  - apply (Hfail source_fails [tick quiet press_event; tick quiet syn_event]);
      reflexivity.
  - destruct (Honly both_ok [tick quiet press_event]) as (Hu & Hi & _).
    + vm_compute. right. right. left. reflexivity.
    + split; [exact Hu | exact Hi].
Defined.

(** * Part IV: further properties of the code *)

(** ** [update] and [close] *)

Lemma update_post (p : Plugin) (conf : Config) :
  enabled (fst (update p conf)) = new_enabled conf
  /\ touch_device_path (fst (update p conf)) = Some (new_device_path conf)
  /\ attrs (fst (update p conf)) = new_attrs conf
  /\ update (fst (update p conf)) conf = (fst (update p conf), []).
Proof.
  assert (Hsame : forall q : Plugin,
             enabled q = new_enabled conf ->
             touch_device_path q = Some (new_device_path conf) ->
             attrs q = new_attrs conf ->
             update q conf = (q, [])).
  { intros q He Hp Ha. rewrite update_same by assumption.
    destruct q as [qe qp qa qt qn]. simpl in *. subst. reflexivity. }
  assert (Hpost : enabled (fst (update p conf)) = new_enabled conf
                  /\ touch_device_path (fst (update p conf))
                     = Some (new_device_path conf)
                  /\ attrs (fst (update p conf)) = new_attrs conf).
  { unfold update.
    destruct (negb (Bool.eqb (enabled p) (new_enabled conf))
              || negb (path_eqb (touch_device_path p) (new_device_path conf)))
      eqn:Hch.
    - destruct (new_enabled conf); repeat split.
    - apply orb_false_iff in Hch as [He Hp].
      apply negb_false_iff in He. apply negb_false_iff in Hp.
      apply Bool.eqb_prop in He.
      unfold path_eqb in Hp.
      destruct (touch_device_path p) as [path |] eqn:Hpath;
        [| discriminate Hp].
      apply String.eqb_eq in Hp. subst path.
      cbn [fst enabled touch_device_path attrs]. repeat split; assumption. }
  destruct Hpost as (He & Hp & Ha).
  repeat split; try assumption.
  apply Hsame; assumption.
Qed.

(** X1: whatever the plugin and the configuration, [update] leaves the
    stored [enabled], device path, [sensitivity], [enable_haptics] and
    [show_debug_borders] equal to the values of the keys [enable],
    [device_path], [sensitivity], [enable_haptics] and [show_debug_borders]
    of the section, or, for a key that is absent and for all of them when
    the section is, to the defaults False, "/dev/input/event5", 1.0, True
    and False; a second [update] with the same configuration changes
    nothing and touches no thread. *)
Theorem update_stores_configuration (p : Plugin) (conf : Config) :
  match conf with
  | Some sec =>
      enabled (fst (update p conf))
      = match conf_enable sec with Some b => b | None => false end
      /\ touch_device_path (fst (update p conf))
         = Some match conf_device_path sec with
                | Some path => path
                | None => "/dev/input/event5"
                end
      /\ sensitivity (attrs (fst (update p conf)))
         = match conf_sensitivity sec with
           | Some v => v
           | None => S754_finite false 4503599627370496 (-52)
           end
      /\ enable_haptics (attrs (fst (update p conf)))
         = match conf_enable_haptics sec with Some b => b | None => true end
      /\ show_debug_borders (attrs (fst (update p conf)))
         = match conf_show_debug_borders sec with
           | Some b => b
           | None => false
           end
  | None =>
      enabled (fst (update p conf)) = false
      /\ touch_device_path (fst (update p conf)) = Some "/dev/input/event5"
      /\ sensitivity (attrs (fst (update p conf)))
         = S754_finite false 4503599627370496 (-52)
      /\ enable_haptics (attrs (fst (update p conf))) = true
      /\ show_debug_borders (attrs (fst (update p conf))) = false
  end
  /\ update (fst (update p conf)) conf = (fst (update p conf), []).
Proof.
  destruct (update_post p conf) as (He & Hp & Ha & Hagain).
  split; [| exact Hagain].
  rewrite He, Hp, Ha.
  destruct conf as [[en path sens hap bor] |].
  - destruct en, path, sens, hap, bor; repeat split; reflexivity.
  - repeat split; reflexivity.
Qed.

Lemma handles_after_app (alive : list nat) (ops1 ops2 : list ThreadOp) :
  handles_after alive (ops1 ++ ops2)
  = handles_after (handles_after alive ops1) ops2.
Proof. unfold handles_after. apply fold_left_app. Qed.

Lemma update_synced (p : Plugin) (conf : Config) (alive : list nat) :
  synced p alive ->
  synced (fst (update p conf)) (handles_after alive (snd (update p conf))).
Proof.
  unfold synced, update. intros Hs.
  destruct (negb (Bool.eqb (enabled p) (new_enabled conf))
            || negb (path_eqb (touch_device_path p) (new_device_path conf))).
  - destruct (enabled p).
    + destruct Hs as (t & -> & ->).
      destruct (new_enabled conf); simpl; rewrite Nat.eqb_refl; simpl;
        eauto.
    + subst alive.
      destruct (input_thread p), (new_enabled conf); simpl; eauto.
  - exact Hs.
Qed.

Lemma run_updates_synced (confs : list Config) (p : Plugin)
    (alive : list nat) :
  synced p alive ->
  synced (fst (run_updates p confs))
         (handles_after alive (snd (run_updates p confs))).
Proof.
  revert p alive. induction confs as [| conf rest IH]; intros p alive Hs.
  - exact Hs.
  - simpl. pose proof (update_synced p conf alive Hs) as Hstep.
    destruct (update p conf) as [p1 ops1]. cbn [fst snd] in Hstep.
    specialize (IH p1 _ Hstep).
    destruct (run_updates p1 rest) as [p2 ops2]. cbn [fst snd] in *.
    rewrite handles_after_app. exact IH.
Qed.

(** X2: after any sequence of [update] calls on a fresh plugin, a loop
    handle (a thread started and not yet joined) exists exactly when the
    plugin is enabled, and it is the thread that [input_thread] names. *)
Theorem handle_exists_iff_enabled (confs : list Config) :
  let p := fst (run_updates initial_plugin confs) in
  let alive := handles_after [] (snd (run_updates initial_plugin confs)) in
  (enabled p = true -> exists t, input_thread p = Some t /\ alive = [t])
  /\ (enabled p = false -> alive = []).
Proof.
  intros p alive.
  assert (Hs : synced p alive).
  { apply run_updates_synced. reflexivity. }
  unfold synced in Hs. split; intros He; rewrite He in Hs; exact Hs.
Qed.

Lemma handle_exists_iff_enabled_witness :
  (exists t,
      input_thread (fst (run_updates initial_plugin [enabling_conf])) = Some t
      /\ handles_after [] (snd (run_updates initial_plugin [enabling_conf]))
         = [t])
  /\ handles_after []
       (snd (run_updates initial_plugin [enabling_conf; None])) = [].
Proof.
  split.
  - apply (proj1 (handle_exists_iff_enabled [enabling_conf])). reflexivity.
  - apply (proj2 (handle_exists_iff_enabled [enabling_conf; None])).
    reflexivity.
Defined.

Lemma never_two_app (alive : list nat) (ops1 ops2 : list ThreadOp) :
  never_two alive (ops1 ++ ops2)
  = never_two alive ops1 && never_two (handles_after alive ops1) ops2.
Proof.
  revert alive. induction ops1 as [| op ops1 IH]; intros alive.
  - simpl. destruct ops2; simpl;
      destruct (List.length alive <=? 1)%nat; reflexivity.
  - simpl. rewrite IH. rewrite andb_assoc. reflexivity.
Qed.

Lemma starts_unflagged_app (flag : bool) (ops1 ops2 : list ThreadOp) :
  starts_unflagged flag (ops1 ++ ops2)
  = starts_unflagged flag ops1
    && starts_unflagged (flag_after flag ops1) ops2.
Proof.
  revert flag. induction ops1 as [| op ops1 IH]; intros flag.
  - reflexivity.
  - destruct op; simpl; rewrite IH; try reflexivity.
    rewrite andb_assoc. reflexivity.
Qed.

Lemma flag_after_app (flag : bool) (ops1 ops2 : list ThreadOp) :
  flag_after flag (ops1 ++ ops2) = flag_after (flag_after flag ops1) ops2.
Proof.
  revert flag. induction ops1 as [| op ops1 IH]; intros flag;
    [reflexivity |].
  destruct op; simpl; apply IH.
Qed.

Lemma call_step (p : Plugin) (c : Call) (alive : list nat) (flag : bool) :
  owned p alive -> flag_owned p flag ->
  never_two alive (snd (call p c)) = true
  /\ starts_unflagged flag (snd (call p c)) = true
  /\ owned (fst (call p c)) (handles_after alive (snd (call p c)))
  /\ flag_owned (fst (call p c)) (flag_after flag (snd (call p c))).
Proof.
  intros Hown Hflag. unfold flag_owned in *.
  assert (Hlen : (List.length alive <=? 1)%nat = true).
  { destruct Hown as [-> | (t & -> & _)]; reflexivity. }
  destruct c as [conf |]; cbn [call].
  - unfold update.
    destruct (negb (Bool.eqb (enabled p) (new_enabled conf))
              || negb (path_eqb (touch_device_path p) (new_device_path conf))).
    + destruct (input_thread p) as [t |] eqn:Ht.
      * assert (Hjoin : filter (fun u => negb (Nat.eqb u t)) alive = []).
        { destruct Hown as [-> | (u & -> & Hu)]; [reflexivity |].
          try rewrite Ht in Hu. injection Hu as ->. simpl.
          rewrite Nat.eqb_refl. reflexivity. }
        destruct (new_enabled conf); simpl; rewrite Hlen, Hjoin; simpl;
          unfold owned; cbn [input_thread]; repeat split; eauto;
          intros Hf; discriminate Hf.
      * assert (Ha : alive = []).
        { destruct Hown as [-> | (u & _ & Hu)]; [reflexivity |].
          try rewrite Ht in Hu. discriminate Hu. }
        assert (Hf : flag = false).
        { destruct flag; [| reflexivity].
          destruct (Hflag eq_refl) as [u Hu]. try rewrite Ht in Hu.
          discriminate Hu. }
        subst alive flag.
        destruct (new_enabled conf); simpl; unfold owned;
          cbn [input_thread]; repeat split; eauto;
          intros Hf; discriminate Hf.
    + simpl. rewrite Hlen. cbn [input_thread]. repeat split; assumption.
  - unfold close. destruct (input_thread p) as [t |] eqn:Ht.
    + assert (Hjoin : filter (fun u => negb (Nat.eqb u t)) alive = []).
      { destruct Hown as [-> | (u & -> & Hu)]; [reflexivity |].
        try rewrite Ht in Hu. injection Hu as ->. simpl.
        rewrite Nat.eqb_refl. reflexivity. }
      simpl. rewrite Hlen, Hjoin. simpl.
      repeat split; [left; reflexivity | intros _; eauto].
    + simpl. rewrite Hlen. rewrite Ht. repeat split; assumption.
Qed.

Lemma run_calls_safe (calls : list Call) (p : Plugin) (alive : list nat)
    (flag : bool) :
  owned p alive -> flag_owned p flag ->
  never_two alive (snd (run_calls p calls)) = true
  /\ starts_unflagged flag (snd (run_calls p calls)) = true
  /\ owned (fst (run_calls p calls))
           (handles_after alive (snd (run_calls p calls))).
Proof.
  revert p alive flag.
  induction calls as [| c rest IH]; intros p alive flag Hown Hflag.
  - simpl. repeat split; [| assumption].
    destruct Hown as [-> | (t & -> & _)]; reflexivity.
  - simpl. destruct (call_step p c alive flag Hown Hflag)
      as (Hn & Hs & Hown1 & Hflag1).
    destruct (call p c) as [p1 ops1]. cbn [fst snd] in *.
    destruct (IH p1 _ _ Hown1 Hflag1) as (Hn2 & Hs2 & Hown2).
    destruct (run_calls p1 rest) as [p2 ops2]. cbn [fst snd] in *.
    rewrite never_two_app, starts_unflagged_app, handles_after_app.
    rewrite Hn, Hn2, Hs, Hs2. repeat split. assumption.
Qed.

Lemma run_calls_app (l1 l2 : list Call) (p : Plugin) :
  run_calls p (l1 ++ l2)
  = (fst (run_calls (fst (run_calls p l1)) l2),
     snd (run_calls p l1) ++ snd (run_calls (fst (run_calls p l1)) l2)).
Proof.
  revert p. induction l1 as [| c l1 IH]; intros p.
  - simpl. destruct (run_calls p l2). reflexivity.
  - simpl. destruct (call p c) as [p1 ops1]. rewrite IH.
    destruct (run_calls p1 l1) as [p2 ops2]. cbn [fst snd].
    rewrite app_assoc. reflexivity.
Qed.

(** X3: over any sequence of [update] and [close] calls on a fresh plugin,
    two loop handles never exist at a time and every thread is started with
    the stop flag clear (though [close] leaves it set); once [close] has
    returned no handle is left. *)
Theorem update_close_thread_safety (calls : list Call) :
  never_two [] (snd (run_calls initial_plugin calls)) = true
  /\ starts_unflagged false (snd (run_calls initial_plugin calls)) = true
  /\ handles_after []
       (snd (run_calls initial_plugin (calls ++ [DoClose]))) = [].
Proof.
  assert (Hown0 : owned initial_plugin []) by (left; reflexivity).
  assert (Hflag0 : flag_owned initial_plugin false)
    by (intros Hf; discriminate Hf).
  destruct (run_calls_safe calls initial_plugin [] false Hown0 Hflag0)
    as (Hn & Hs & Hown).
  split; [exact Hn |]. split; [exact Hs |].
  rewrite run_calls_app. cbn [snd]. rewrite handles_after_app.
  set (p := fst (run_calls initial_plugin calls)) in *.
  set (alive := handles_after [] (snd (run_calls initial_plugin calls))) in *.
  simpl. unfold close.
  destruct (input_thread p) as [t |] eqn:Ht.
  - destruct Hown as [-> | (u & -> & Hu)]; [reflexivity |].
    rewrite Ht in Hu. injection Hu as ->. simpl.
    rewrite Nat.eqb_refl. reflexivity.
  - destruct Hown as [-> | (u & _ & Hu)]; [reflexivity |].
    rewrite Ht in Hu. discriminate Hu.
Qed.

(** ** The state machine of the loop *)

Lemma axis_step_not_abs (axis acc : Z) (ev : InputEvent) :
  type ev <> e.EV_ABS -> axis_step axis acc ev = acc.
Proof.
  intros H. unfold axis_step.
  destruct (Z.eqb_spec (type ev) e.EV_ABS); [contradiction | reflexivity].
Qed.

Lemma touch_button_not_abs (ev : InputEvent) :
  is_touch_button ev = true -> type ev <> e.EV_ABS /\ type ev <> e.EV_SYN.
Proof.
  unfold is_touch_button. intros H. apply andb_true_iff in H as [H _].
  apply Z.eqb_eq in H. rewrite H. split; discriminate.
Qed.

(** X5: an event that is no report of the X or Y axis, no touch-button
    event and no sync frame changes nothing and writes nothing; so do a
    touch-button event whose value is neither 0 nor 1, and a press of the
    touch button while a touch is in progress (the side and the baseline of
    the touch stay as they are). *)
Theorem other_events_ignored :
  (forall (cfg : Live) (st : TouchState) (ev : InputEvent),
      recognised ev = false -> loop_body cfg st ev = ([], Ok st))
  /\ (forall (cfg : Live) (st : TouchState) (ev : InputEvent),
      is_touch_button ev = true -> value ev <> 0 -> value ev <> 1 ->
      loop_body cfg st ev = ([], Ok st))
  /\ (forall (cfg : Live) (st : TouchState) (ev : InputEvent) (held : Side),
      is_press ev = true -> touching st = Some held ->
      loop_body cfg st ev = ([], Ok st)).
Proof.
  split; [| split].
  - intros cfg st ev Hrec. unfold recognised in Hrec.
    apply orb_false_iff in Hrec as [Hrec Hsyn].
    apply orb_false_iff in Hrec as [Habs Hbtn].
    rewrite loop_body_other.
    + f_equal. f_equal. unfold collect_coordinates.
      destruct (type ev =? e.EV_ABS); [| reflexivity].
      simpl in Habs. apply orb_false_iff in Habs as [-> ->]. reflexivity.
    + unfold touch_start, is_press. rewrite Hbtn. reflexivity.
    + unfold touch_end, is_release. rewrite Hbtn. reflexivity.
    + unfold sync_while_touching. rewrite Hsyn. reflexivity.
  - intros cfg st ev Hbtn H0 H1.
    destruct (touch_button_not_abs ev Hbtn) as [Habs Hsyn].
    rewrite loop_body_other.
    + rewrite collect_coordinates_not_abs by assumption. reflexivity.
    + unfold touch_start, is_press.
      destruct (Z.eqb_spec (value ev) 1); [contradiction |].
      rewrite andb_false_r. reflexivity.
    + unfold touch_end, is_release.
      destruct (Z.eqb_spec (value ev) 0); [contradiction |].
      rewrite andb_false_r. reflexivity.
    + unfold sync_while_touching.
      destruct (Z.eqb_spec (type ev) e.EV_SYN); [contradiction | reflexivity].
  - intros cfg st ev held Hp Ht.
    assert (Hbtn : is_touch_button ev = true).
    { unfold is_press in Hp. apply andb_true_iff in Hp as [Hb _]. exact Hb. }
    assert (Hv : value ev = 1).
    { unfold is_press in Hp. apply andb_true_iff in Hp as [_ Hv].
      apply Z.eqb_eq. exact Hv. }
    destruct (touch_button_not_abs ev Hbtn) as [Habs Hsyn].
    rewrite loop_body_other.
    + rewrite collect_coordinates_not_abs by assumption. reflexivity.
    + unfold touch_start, is_touching. rewrite Ht. apply andb_false_r.
    + unfold touch_end, is_release. rewrite Hv.
      change (1 =? 0) with false. rewrite andb_false_r. reflexivity.
    + unfold sync_while_touching.
      destruct (Z.eqb_spec (type ev) e.EV_SYN); [contradiction | reflexivity].
Qed.

Lemma other_events_ignored_witness :
  loop_body borders_on slow_drag_state
    {| type := 4; code := 4; value := 77 |} = ([], Ok slow_drag_state)
  /\ loop_body borders_on slow_drag_state
       {| type := e.EV_KEY; code := e.BTN_TOUCH; value := 2 |}
     = ([], Ok slow_drag_state)
  /\ loop_body borders_on slow_drag_state press_event
     = ([], Ok slow_drag_state).
Proof.
  destruct other_events_ignored as (Hother & Hvalue & Hpress).
  split; [| split].
  - apply Hother. reflexivity.
  - apply Hvalue; [reflexivity | simpl; lia | simpl; lia].
  - apply (Hpress _ _ _ Left); reflexivity.
Defined.

(** X6: after a turn of the loop, [touching] depends on the touch button
    alone: a press leaves a touch in progress (the one already held, or a
    new one on the side of the current [x]), a release leaves none, and any
    other event leaves [touching] as it was. *)
Theorem touching_follows_touch_button (cfg : Live) (st st' : TouchState)
    (ev : InputEvent) (tr : list Action) :
  loop_body cfg st ev = (tr, Ok st') ->
  touching st' =
    if is_press ev then
      match touching st with
      | Some held => Some held
      | None => Some (resolve (x st) SCREEN_WIDTH)
      end
    else if is_release ev then None
    else touching st.
Proof.
  intros Hrun.
  destruct (loop_body_cases cfg st ev)
    as [Hts | [[Hts Hte] | [(Hts & Hte & Hsy) | (Hts & Hte & Hsy)]]].
  - rewrite loop_body_touch_start in Hrun by assumption.
    injection Hrun as _ <-.
    unfold touch_start in Hts. apply andb_true_iff in Hts as [-> Hidle].
    apply negb_true_iff in Hidle. apply is_touching_none in Hidle.
    rewrite Hidle. reflexivity.
  - apply touch_end_release in Hte as [Hrel [held Ht]].
    rewrite (loop_body_touch_end cfg st ev held) in Hrun by assumption.
    injection Hrun as _ <-.
    assert (Hp : is_press ev = false).
    { unfold is_press, is_release in *.
      apply andb_true_iff in Hrel as [_ Hv]. apply Z.eqb_eq in Hv.
      rewrite Hv. apply andb_false_r. }
    rewrite Hp, Hrel. reflexivity.
  - assert (Hbtn : is_touch_button ev = false).
    { unfold sync_while_touching in Hsy. apply andb_true_iff in Hsy as [H _].
      apply Z.eqb_eq in H. unfold is_touch_button. rewrite H. reflexivity. }
    unfold is_press, is_release. rewrite Hbtn. cbn [andb].
    rewrite loop_body_sync in Hrun by assumption.
    destruct (scaled_delta (x st) (last_x st) (sensitivity cfg));
      [| discriminate Hrun].
    destruct (scaled_delta (y st) (last_y st) (sensitivity cfg));
      [| discriminate Hrun].
    injection Hrun as _ <-. reflexivity.
  - rewrite loop_body_other in Hrun by assumption.
    injection Hrun as _ <-.
    destruct (collect_coordinates_touching st ev) as [-> _].
    unfold touch_start, touch_end in Hts, Hte.
    destruct (is_press ev).
    + destruct (touching st) eqn:Ht; [reflexivity |].
      unfold is_touching in Hts. rewrite Ht in Hts. discriminate Hts.
    + destruct (is_release ev); [| reflexivity].
      destruct (touching st) eqn:Ht; [| reflexivity].
      unfold is_touching in Hte. rewrite Ht in Hte. discriminate Hte.
Qed.

Lemma touching_follows_touch_button_witness :
  touching {| touching := None; x := 101; y := 50;
              last_x := 100; last_y := 50 |} = None.
Proof.
  assert (Hrun : loop_body borders_on slow_drag_state release_event
                 = ([Inject (remove_rect Left)],
                    Ok {| touching := None; x := 101; y := 50;
                          last_x := 100; last_y := 50 |}))
    by reflexivity.
  exact (touching_follows_touch_button _ _ _ _ _ Hrun).
Defined.

Lemma loop_body_xy (cfg : Live) (st st1 : TouchState) (ev : InputEvent)
    (tr : list Action) :
  loop_body cfg st ev = (tr, Ok st1) ->
  x st1 = axis_step e.ABS_X (x st) ev /\ y st1 = axis_step e.ABS_Y (y st) ev.
Proof.
  intros Hrun.
  destruct (loop_body_cases cfg st ev)
    as [Hts | [[Hts Hte] | [(Hts & Hte & Hsy) | (Hts & Hte & Hsy)]]].
  - rewrite loop_body_touch_start in Hrun by assumption.
    injection Hrun as _ <-.
    unfold touch_start, is_press in Hts.
    apply andb_true_iff in Hts as [Hts _].
    apply andb_true_iff in Hts as [Hbtn _].
    destruct (touch_button_not_abs ev Hbtn) as [Habs _].
    rewrite !axis_step_not_abs by assumption. split; reflexivity.
  - apply touch_end_release in Hte as [Hrel [held Ht]].
    rewrite (loop_body_touch_end cfg st ev held) in Hrun by assumption.
    injection Hrun as _ <-.
    unfold is_release in Hrel. apply andb_true_iff in Hrel as [Hbtn _].
    destruct (touch_button_not_abs ev Hbtn) as [Habs _].
    rewrite !axis_step_not_abs by assumption. split; reflexivity.
  - rewrite loop_body_sync in Hrun by assumption.
    destruct (scaled_delta (x st) (last_x st) (sensitivity cfg));
      [| discriminate Hrun].
    destruct (scaled_delta (y st) (last_y st) (sensitivity cfg));
      [| discriminate Hrun].
    injection Hrun as _ <-.
    unfold sync_while_touching in Hsy. apply andb_true_iff in Hsy as [Hty _].
    apply Z.eqb_eq in Hty.
    rewrite !axis_step_not_abs by (rewrite Hty; discriminate).
    split; reflexivity.
  - rewrite loop_body_other in Hrun by assumption.
    injection Hrun as _ <-. apply collect_coordinates_xy.
Qed.

(** X7: through any events that the loop processes (touches, releases and
    syncs included), [x] and [y] are the values of the latest reports of the
    X and Y axes, or the initial ones if there was none: a touch-end does
    not reset them. *)
Theorem coordinates_follow_axis_reports (ticks : list Tick)
    (st st' : TouchState) (tr : list Action) :
  Forall (fun t => stop_is_set t = false) ticks ->
  read_loop st ticks = (tr, Ok st') ->
  x st' = latest e.ABS_X (x st) (map event ticks)
  /\ y st' = latest e.ABS_Y (y st) (map event ticks).
Proof.
  intros Hall. revert st tr.
  induction Hall as [| t rest Hstop _ IH]; intros st tr Hrun.
  - injection Hrun as _ <-. split; reflexivity.
  - rewrite read_loop_go in Hrun by assumption.
    destruct (loop_body (live t) st (event t)) as [tr1 [st1 | ex]] eqn:Hbody;
      [| discriminate Hrun].
    rewrite bind_ok in Hrun.
    destruct (read_loop st1 rest) as [tr2 r2] eqn:Hrest.
    cbn [trace outcome fst snd] in Hrun. injection Hrun as _ ->.
    destruct (IH st1 tr2 Hrest) as [Hx Hy].
    destruct (loop_body_xy _ _ _ _ _ Hbody) as [Hx1 Hy1].
    unfold latest in *. simpl. rewrite <- Hx1, <- Hy1. split; assumption.
Qed.

Lemma coordinates_follow_axis_reports_witness :
  x {| touching := None; x := 1700; y := 300;
       last_x := 1500; last_y := 300 |} = 1700
  /\ y {| touching := None; x := 1700; y := 300;
          last_x := 1500; last_y := 300 |} = 300.
Proof.
  apply (coordinates_follow_axis_reports
           [ tick quiet (abs_event e.ABS_X 1500);
             tick quiet (abs_event e.ABS_Y 300); tick quiet press_event;
             tick quiet syn_event; tick quiet (abs_event e.ABS_X 1700);
             tick quiet release_event ]
           initial_state _ [Syn]).
  - repeat constructor.
  - vm_compute. reflexivity.
Defined.

(** ** What a run does to the outside *)

Lemma loop_body_trace (cfg : Live) (st : TouchState) (ev : InputEvent) :
  (touch_start st ev = true
   /\ trace (loop_body cfg st ev)
      = haptic_pulse cfg ++ border_shown cfg (resolve (x st) SCREEN_WIDTH))
  \/ (touch_start st ev = false
      /\ exists held, trace (loop_body cfg st ev) = border_removed cfg held)
  \/ (touch_start st ev = false
      /\ exists dx dy, trace (loop_body cfg st ev)
                       = delta_writes dx dy ++ [Syn])
  \/ (touch_start st ev = false /\ trace (loop_body cfg st ev) = []).
Proof.
  destruct (loop_body_cases cfg st ev)
    as [Hts | [[Hts Hte] | [(Hts & Hte & Hsy) | (Hts & Hte & Hsy)]]].
  - left. rewrite loop_body_touch_start by assumption.
    split; [assumption | reflexivity].
  - right. left. apply touch_end_release in Hte as [Hrel [held Ht]].
    rewrite (loop_body_touch_end cfg st ev held) by assumption.
    split; [assumption | exists held; reflexivity].
  - rewrite loop_body_sync by assumption.
    destruct (scaled_delta (x st) (last_x st) (sensitivity cfg)) as [dx |];
      [| right; right; right; split; [assumption | reflexivity]].
    destruct (scaled_delta (y st) (last_y st) (sensitivity cfg)) as [dy |];
      [| right; right; right; split; [assumption | reflexivity]].
    right. right. left.
    split; [assumption | exists dx, dy; reflexivity].
  - right. right. right. rewrite loop_body_other by assumption.
    split; [assumption | reflexivity].
Qed.

Lemma filter_haptic_pulse (cfg : Live) :
  filter is_haptic (haptic_pulse cfg)
  = if enable_haptics cfg then pulse else [].
Proof. unfold haptic_pulse. destruct (enable_haptics cfg); reflexivity. Qed.

Lemma loop_body_haptic (cfg : Live) (st : TouchState) (ev : InputEvent) :
  filter is_haptic (trace (loop_body cfg st ev))
  = if touch_start st ev && enable_haptics cfg then pulse else [].
Proof.
  destruct (loop_body_trace cfg st ev)
    as [[Hts ->] | [[Hts [held ->]] | [[Hts (dx & dy & ->)] | [Hts ->]]]];
    rewrite Hts; cbn [andb].
  - rewrite filter_app, filter_haptic_pulse.
    unfold border_shown.
    destruct (enable_haptics cfg), (show_debug_borders cfg),
      (resolve (x st) SCREEN_WIDTH); reflexivity.
  - unfold border_removed.
    destruct (show_debug_borders cfg), held; reflexivity.
  - unfold delta_writes. destruct (dx =? 0), (dy =? 0); reflexivity.
  - reflexivity.
Qed.

(** X8: the only sleeps and rumble commands of a run are whole pulses
    (rumble at 0.6, a sleep of 0.05 s, rumble at 0, in this order), at most
    one per press of the touch button read with [enable_haptics] on; a run
    with [enable_haptics] off throughout has none. *)
Theorem haptics_come_in_pulses (ticks : list Tick) (st : TouchState) :
  exists n : nat,
    filter is_haptic (trace (read_loop st ticks)) = List.concat (repeat pulse n)
    /\ (n <= List.length
               (filter (fun t => is_press (event t) && enable_haptics (live t))
                       ticks))%nat.
Proof.
  revert st. induction ticks as [| t rest IH]; intros st.
  - exists 0%nat. split; [reflexivity | simpl; lia].
  - destruct (stop_is_set t) eqn:Hstop.
    { exists 0%nat. rewrite read_loop_stop by assumption.
      split; [reflexivity | lia]. }
    rewrite trace_read_loop_go by assumption.
    rewrite filter_app, loop_body_haptic.
    assert (Hrest : exists n : nat,
               filter is_haptic
                 match outcome (loop_body (live t) st (event t)) with
                 | Ok st' => trace (read_loop st' rest)
                 | Raise _ => []
                 end = List.concat (repeat pulse n)
               /\ (n <= List.length
                     (filter (fun t => is_press (event t)
                                       && enable_haptics (live t)) rest))%nat).
    { destruct (outcome (loop_body (live t) st (event t))) as [st1 |].
      - apply IH.
      - exists 0%nat. split; [reflexivity | lia]. }
    destruct Hrest as (n & Hn & Hle). rewrite Hn.
    destruct (touch_start st (event t) && enable_haptics (live t)) eqn:Hp.
    + exists (S n). split; [reflexivity |].
      apply andb_true_iff in Hp as [Hts Hh].
      unfold touch_start in Hts. apply andb_true_iff in Hts as [Hpress _].
      cbn [filter]. rewrite Hpress, Hh. simpl. lia.
    + exists n. split; [reflexivity |].
      cbn [filter].
      destruct (is_press (event t) && enable_haptics (live t)); simpl; lia.
Qed.

Lemma loop_body_device_only (cfg : Live) (st : TouchState) (ev : InputEvent) :
  enable_haptics cfg = false -> show_debug_borders cfg = false ->
  device_output (trace (loop_body cfg st ev)) = trace (loop_body cfg st ev).
Proof.
  intros Hh Hb.
  destruct (loop_body_trace cfg st ev)
    as [[Hts ->] | [[Hts [held ->]] | [[Hts (dx & dy & ->)] | [Hts ->]]]].
  - unfold haptic_pulse, border_shown. rewrite Hh, Hb. reflexivity.
  - unfold border_removed. rewrite Hb. reflexivity.
  - unfold delta_writes. destruct (dx =? 0), (dy =? 0); reflexivity.
  - reflexivity.
Qed.

(** X9: a run with [enable_haptics] and [show_debug_borders] off throughout
    injects nothing and never sleeps: all it does is write to and sync the
    virtual device. *)
Theorem plain_run_only_drives_device (ticks : list Tick) (st : TouchState) :
  Forall (fun t => enable_haptics (live t) = false
                   /\ show_debug_borders (live t) = false) ticks ->
  device_output (trace (read_loop st ticks)) = trace (read_loop st ticks).
Proof.
  intros Hall. revert st.
  induction Hall as [| t rest [Hh Hb] _ IH]; intros st; [reflexivity |].
  destruct (stop_is_set t) eqn:Hstop.
  { rewrite read_loop_stop by assumption. reflexivity. }
  rewrite trace_read_loop_go by assumption.
  unfold device_output in *. rewrite filter_app.
  fold (device_output (trace (loop_body (live t) st (event t)))).
  rewrite loop_body_device_only by assumption.
  f_equal.
  destruct (outcome (loop_body (live t) st (event t)));
    [apply IH | reflexivity].
Qed.

Lemma plain_run_only_drives_device_witness :
  device_output (trace (read_loop initial_state
     [ tick quiet (abs_event e.ABS_X 40); tick quiet press_event;
       tick quiet (abs_event e.ABS_X 47); tick quiet syn_event;
       tick quiet release_event ]))
  = trace (read_loop initial_state
     [ tick quiet (abs_event e.ABS_X 40); tick quiet press_event;
       tick quiet (abs_event e.ABS_X 47); tick quiet syn_event;
       tick quiet release_event ]).
Proof.
  apply plain_run_only_drives_device.
  repeat constructor.
Defined.

Lemma frames_app (pending : nat) (t1 t2 : list Action) :
  frames pending (t1 ++ t2)
  = match frames pending t1 with
    | Some pending' => frames pending' t2
    | None => None
    end.
Proof.
  revert pending. induction t1 as [| a t1 IH]; intros pending;
    [reflexivity |].
  simpl. destruct (frame_step pending a); [apply IH | reflexivity].
Qed.

Lemma frames_delta_writes (dx dy : Z) :
  frames 0 (delta_writes dx dy ++ [Syn]) = Some 0%nat.
Proof.
  unfold delta_writes.
  destruct (Z.eqb_spec dx 0) as [Hx | Hx], (Z.eqb_spec dy 0) as [Hy | Hy];
    simpl; try reflexivity;
    repeat match goal with
      | H : ?d <> 0 |- context [?d =? 0] =>
          rewrite (proj2 (Z.eqb_neq d 0) H)
      end; reflexivity.
Qed.

Lemma loop_body_frames (cfg : Live) (st : TouchState) (ev : InputEvent) :
  frames 0 (trace (loop_body cfg st ev)) = Some 0%nat.
Proof.
  destruct (loop_body_trace cfg st ev)
    as [[Hts ->] | [[Hts [held ->]] | [[Hts (dx & dy & ->)] | [Hts ->]]]].
  - unfold haptic_pulse, border_shown.
    destruct (enable_haptics cfg), (show_debug_borders cfg); reflexivity.
  - unfold border_removed. destruct (show_debug_borders cfg); reflexivity.
  - apply frames_delta_writes.
  - reflexivity.
Qed.

Lemma read_loop_frames (ticks : list Tick) (st : TouchState) :
  frames 0 (trace (read_loop st ticks)) = Some 0%nat.
Proof.
  revert st. induction ticks as [| t rest IH]; intros st; [reflexivity |].
  destruct (stop_is_set t) eqn:Hstop.
  { rewrite read_loop_stop by assumption. reflexivity. }
  rewrite trace_read_loop_go by assumption.
  rewrite frames_app, loop_body_frames.
  destruct (outcome (loop_body (live t) st (event t)));
    [apply IH | reflexivity].
Qed.

(** X10: in every run of the loop, and so of the code around it, the calls
    on the virtual device come in whole frames, as far as these calls
    return: a frame is at most one relative move on X, then at most one on
    Y, each non-zero, then [syn()]; no move is left without its [syn()], and
    injects, sleeps and the final close happen between frames only, even
    when [int()] raises. *)
Theorem device_output_is_framed :
  (forall (st : TouchState) (ticks : list Tick),
      frames 0 (trace (read_loop st ticks)) = Some 0%nat)
  /\ (forall ticks : list Tick,
      frames 0 (trace (loop_and_close ticks)) = Some 0%nat)
  /\ (forall (env : Startup) (ticks : list Tick),
      frames 0 (trace (started_thread env ticks)) = Some 0%nat
      /\ frames 0 (trace (_input_thread_loop env ticks)) = Some 0%nat).
Proof.
  assert (Hloop : forall ticks : list Tick,
             frames 0 (trace (loop_and_close ticks)) = Some 0%nat).
  { intros ticks. rewrite loop_and_close_run.
    pose proof (read_loop_frames ticks initial_state) as Hfr.
    destruct (read_loop initial_state ticks) as [tr [st | ex]];
      cbn [trace fst] in *; [| exact Hfr].
    rewrite frames_app, Hfr. reflexivity. }
  split; [| split].
  - intros st ticks. apply read_loop_frames.
  - exact Hloop.
  - intros env ticks. split.
    + unfold started_thread.
      destruct (uinput_ok env); [| reflexivity].
      destruct (input_device_ok env); [| reflexivity].
      specialize (Hloop ticks).
      destruct (loop_and_close ticks) as [tr r]. cbn [trace fst] in Hloop.
      destruct r; exact Hloop.
    + rewrite input_thread_loop_logs. reflexivity.
Qed.

(** X4: as the source stands the thread function never gets past its
    start-up and never raises: the two [AbsInfo(...)] calls give five of
    the six fields of the tuple ([resolution] is left out), the
    [TypeError] is caught, and the function logs once and returns, whatever
    the devices and the events; no virtual device is created, the source
    is not opened, no event is read and nothing is closed. *)
Theorem thread_function_stops_at_abs_info :
  AbsInfo axis_kwargs = None
  /\ (forall r : Z,
        AbsInfo (axis_kwargs ++ [("resolution", r)])
        = Some [0; -32768; 32767; 16; 128; r])
  /\ capabilities = None
  /\ (forall (env : Startup) (ticks : list Tick),
        _input_thread_loop env ticks = ([LogError], Ok tt)).
Proof.
  destruct AbsInfo_axis_kwargs as [Hmissing Hgiven].
  split; [exact Hmissing |]. split; [exact Hgiven |].
  split; [exact capabilities_raises | exact input_thread_loop_logs].
Qed.

(** ** The direction of a delta *)

Lemma binary_round_aux_sign (sx : bool) (mx ex : Z) (lx : location) :
  binary_round_aux prec emax sx mx ex lx = S754_nan
  \/ sign_bit (binary_round_aux prec emax sx mx ex lx) = Some sx.
Proof.
  unfold binary_round_aux.
  destruct (shr_fexp prec emax mx ex lx) as [mrs1 e1].
  destruct (shr_fexp prec emax _ e1 loc_Exact) as [mrs2 e2].
  destruct (shr_m mrs2); [right; reflexivity | | left; reflexivity].
  destruct (e2 <=? emax - prec); right; reflexivity.
Qed.

Lemma float_of_int_sign (n : Z) (f : float) :
  float_of_int n = Ok f -> f = S754_nan \/ sign_bit f = Some (n <? 0).
Proof.
  unfold float_of_int, binary_normalize, binary_round.
  destruct n as [| m | m].
  - intros H. injection H as <-. right. reflexivity.
  - destruct (shl_align m 0 _) as [mz ez].
    destruct (binary_round_aux_sign false (Zpos mz) ez loc_Exact) as [H | H];
      destruct (binary_round_aux prec emax false (Zpos mz) ez loc_Exact);
      intros Hf; try discriminate; injection Hf as <-; auto.
  - destruct (shl_align m 0 _) as [mz ez].
    destruct (binary_round_aux_sign true (Zpos mz) ez loc_Exact) as [H | H];
      destruct (binary_round_aux prec emax true (Zpos mz) ez loc_Exact);
      intros Hf; try discriminate; injection Hf as <-; auto.
Qed.

Lemma SFmul_sign (f1 f2 : float) (s1 s2 : bool) :
  sign_bit f1 = Some s1 -> sign_bit f2 = Some s2 ->
  SFmul prec emax f1 f2 = S754_nan
  \/ sign_bit (SFmul prec emax f1 f2) = Some (xorb s1 s2).
Proof.
  intros H1 H2.
  destruct f1 as [a | a | | a m1 e1], f2 as [b | b | | b m2 e2];
    cbn [sign_bit] in H1, H2; try discriminate;
    injection H1 as <-; injection H2 as <-; unfold SFmul;
    try (right; reflexivity); try (left; reflexivity).
  apply binary_round_aux_sign.
Qed.

Lemma int_of_float_sign (f : float) (s : bool) (d : Z) :
  sign_bit f = Some s -> int_of_float f = Ok d -> 0 <= cond_Zopp s d.
Proof.
  destruct f as [a | a | | a m ex]; cbn [sign_bit int_of_float];
    intros Hs Hd; try discriminate.
  - injection Hd as <-. destruct s; simpl; lia.
  - injection Hs as <-. injection Hd as <-.
    assert (H : 0 <= Z.shiftl (Zpos m) ex) by (apply Z.shiftl_nonneg; lia).
    unfold cond_Zopp. destruct a; lia.
Qed.

Lemma scaled_delta_sign (cur last d : Z) (sens : float) (ss : bool) :
  scaled_delta cur last sens = Ok d -> sign_bit sens = Some ss ->
  0 <= cond_Zopp (xorb (cur - last <? 0) ss) d.
Proof.
  unfold scaled_delta, mul_int_float. intros Hd Hs.
  destruct (float_of_int (cur - last)) as [fa |] eqn:Hfa; [| discriminate Hd].
  destruct (float_of_int_sign _ _ Hfa) as [-> | Hsa].
  - discriminate Hd.
  - destruct (SFmul_sign fa sens _ _ Hsa Hs) as [Hnan | Hsp].
    + rewrite Hnan in Hd. discriminate Hd.
    + eapply int_of_float_sign; eassumption.
Qed.

(** X11: the pointer never moves against the finger: when [int()] returns,
    a delta has the sign of the coordinate difference (or is zero) if the
    sign of the sensitivity is positive, the opposite sign (or zero) if it
    is negative, and it is zero when the coordinate has not moved. *)
Theorem delta_keeps_direction (cur last d : Z) (sens : float) :
  scaled_delta cur last sens = Ok d ->
  (sign_bit sens = Some false -> 0 <= d * (cur - last))
  /\ (sign_bit sens = Some true -> d * (cur - last) <= 0)
  /\ (cur = last -> d = 0).
Proof.
  intros Hd. split; [| split].
  - intros Hs. pose proof (scaled_delta_sign _ _ _ _ _ Hd Hs) as H.
    rewrite xorb_false_r in H. unfold cond_Zopp in H.
    destruct (Z.ltb_spec (cur - last) 0); nia.
  - intros Hs. pose proof (scaled_delta_sign _ _ _ _ _ Hd Hs) as H.
    rewrite xorb_true_r in H. unfold cond_Zopp in H.
    destruct (Z.ltb_spec (cur - last) 0); simpl in H; nia.
  - intros ->. destruct (is_finite sens) eqn:Hf.
    + rewrite scaled_delta_same in Hd by assumption.
      injection Hd as <-. reflexivity.
    + rewrite scaled_delta_same_raises in Hd by assumption. discriminate Hd.
Qed.

Lemma delta_keeps_direction_witness :
  0 <= -3 * (100 - 107).
Proof.
  assert (Hd : scaled_delta 100 107 (literal 1 2) = Ok (-3))
    by (vm_compute; reflexivity).
  assert (Hs : sign_bit (literal 1 2) = Some false)
    by (vm_compute; reflexivity).
  exact (proj1 (delta_keeps_direction 100 107 (-3) (literal 1 2) Hd) Hs).
Defined.

(** ** [autodetect] *)

(** X12: [autodetect] never returns an empty sequence and makes no second
    plugin: it returns the plugins that exist unchanged when there is one,
    a single fresh plugin (disabled, no device path, no thread) when there
    is none, and applying it to its own result changes nothing. *)
Theorem autodetect_adds_only_when_empty {HHDPlugin : Type}
    (as_plugin : Plugin -> HHDPlugin) (existing : list HHDPlugin) :
  autodetect as_plugin existing <> []
  /\ (existing <> [] -> autodetect as_plugin existing = existing)
  /\ (existing = [] ->
      autodetect as_plugin existing = [as_plugin initial_plugin])
  /\ autodetect as_plugin (autodetect as_plugin existing)
     = autodetect as_plugin existing.
Proof.
  destruct existing as [| p rest].
  - split; [discriminate |]. split; [intros H; contradiction |].
    split; reflexivity.
  - assert (Hpos : (0 <? Z.of_nat (List.length (p :: rest))) = true).
    { apply Z.ltb_lt. simpl List.length. lia. }
    assert (Hsame : autodetect as_plugin (p :: rest) = p :: rest).
    { unfold autodetect. rewrite Hpos. reflexivity. }
    rewrite !Hsame. split; [discriminate |]. split; [reflexivity |].
    split; [intros H; discriminate H | reflexivity].
Qed.

Lemma autodetect_adds_only_when_empty_witness :
  autodetect Some [None; Some initial_plugin] = [None; Some initial_plugin]
  /\ autodetect Some [] = [Some initial_plugin].
Proof.
  split.
  - apply (proj1 (proj2 (autodetect_adds_only_when_empty Some
                           [None; Some initial_plugin]))).
    discriminate.
  - apply (proj1 (proj2 (proj2 (autodetect_adds_only_when_empty Some [])))).
    reflexivity.
Defined.
